(** * SmartCourt backend (backend/main.py): refresh loop and HTTP handlers

    A shallow embedding of [backend/main.py].  The module keeps one global,
    [LATEST_STATS], which a background task ([_processing_loop]) overwrites
    once per polling cycle and which the [/api/stats] handler returns; five
    page routes read an HTML file from [frontend/] at request time.

    Python values are modelled as JSON-like trees, exceptions as objects with
    the classes of their type and their [repr], and code that reads or
    assigns the global as a state-and-exception monad over the value of the
    global.  The module [Shared] has the loop once more over a heap of
    objects with identity, for the properties that depend on the record
    holding references to the objects of the pipeline. *)

From Stdlib Require Import String Ascii List ZArith Lia Bool ZifyBool DecimalString.
From Stdlib.Strings Require Import Byte.
Import ListNotations.
Local Open Scope string_scope.
Local Open Scope Z_scope.

(** ** Python values and exceptions *)

Module Py.

(** The floats that JSON cannot write. *)
Inductive nonfinite : Type := NaN | Infinity | NegInfinity.

(** The payloads that travel through the server: what the pipeline returns,
    what the insights generator returns and what [LATEST_STATS] holds.  A
    [dict] keeps its insertion order, so it is an association list; the
    text of a [str] is kept as its UTF-8 bytes.  Of the floats only the
    non-finite ones are present, which the JSON rendering refuses; the
    decimal text of a finite float is not modelled.  A value is immutable:
    a pipeline that goes on changing an object it has returned is the
    subject of the module [Shared] below. *)
#[warnings="-register-all"]
Inductive pyval : Type :=
| PNone
| PBool (b : bool)
| PInt (z : Z)
| PFloat (x : nonfinite)
| PStr (s : string)
| PList (items : list pyval)
| PDict (entries : list (string * pyval)).

(** A raised object: the names of the classes of its type, from the type
    itself up to [BaseException] (its method resolution order); the text
    that [repr(e)] evaluates to, or the exception that [repr(e)] raises when
    the [__repr__] of the class fails; for an instance of FastAPI's
    [HTTPException] its status code and detail; and for an instance of
    [StopIteration] its attribute [value] ([None] for any other object). *)
#[warnings="-register-all"]
Inductive exn : Type := mk_exn {
  exn_mro : list string;
  exn_repr : string;
  exn_repr_raises : option exn;
  exn_http : option (Z * string);
  exn_value : pyval
}.

(** [isinstance(e, C)] and [type(e) is C]. *)
Definition isinstance (e : exn) (C : string) : bool :=
  existsb (String.eqb C) (exn_mro e).

Definition type_is (e : exn) (C : string) : bool :=
  match exn_mro e with
  | c :: _ => String.eqb c C
  | [] => false
  end.

(** [except Exception] tests the class of the object: [KeyboardInterrupt],
    [SystemExit], [asyncio.CancelledError] and [GeneratorExit] derive from
    [BaseException] only. *)
Definition isinstance_Exception (e : exn) : bool := isinstance e "Exception".

(** An instance of a class that derives directly from [Exception], and one
    of a class that derives directly from [BaseException]. *)
Definition PyException (cls : string) (repr : string) : exn :=
  {| exn_mro := [cls; "Exception"; "BaseException"];
     exn_repr := repr; exn_repr_raises := None; exn_http := None;
     exn_value := PNone |}.

Definition PyBaseException (cls : string) (repr : string) : exn :=
  {| exn_mro := [cls; "BaseException"]; exn_repr := repr;
     exn_repr_raises := None; exn_http := None; exn_value := PNone |}.

(** Outcome of a call or of an [await]: it returns, it raises, or it never
    finishes. *)
Inductive result (A : Type) : Type :=
| Return (a : A)
| Raise (e : exn)
| Pending.
Arguments Return {A} a.
Arguments Raise {A} e.
Arguments Pending {A}.

(** [d.get(key, default)] on an association list. *)
Fixpoint dict_get (d : list (string * pyval)) (key : string) (default : pyval)
  : pyval :=
  match d with
  | [] => default
  | (k, v) :: d' => if String.eqb k key then v else dict_get d' key default
  end.

(** [d[key]] present or not, for statements about fields. *)
Fixpoint dict_lookup (d : list (string * pyval)) (key : string) : option pyval :=
  match d with
  | [] => None
  | (k, v) :: d' => if String.eqb k key then Some v else dict_lookup d' key
  end.

Definition is_None (v : pyval) : bool :=
  match v with PNone => true | _ => false end.

Definition type_name (v : pyval) : string :=
  match v with
  | PNone => "NoneType"
  | PBool _ => "bool"
  | PInt _ => "int"
  | PFloat _ => "float"
  | PStr _ => "str"
  | PList _ => "list"
  | PDict _ => "dict"
  end.

Definition squote : string := String "039"%char EmptyString.
Definition dquote : string := String "034"%char EmptyString.

(** [AttributeError("'NoneType' object has no attribute 'get'")] and its
    relatives: only a [dict] has a [get] method among the values above. *)
Definition AttributeError_get (v : pyval) : exn :=
  PyException "AttributeError"
    ("AttributeError(" ++ dquote ++ squote ++ type_name v ++ squote
       ++ " object has no attribute " ++ squote ++ "get" ++ squote
       ++ dquote ++ ")").

(** [receiver.get(key, default)]. *)
Definition method_get (receiver : pyval) (key : string) (default : pyval)
  : result pyval :=
  match receiver with
  | PDict d => Return (dict_get d key default)
  | _ => Raise (AttributeError_get receiver)
  end.

(** Field of a stored record, [None] when the value is not a dict or lacks
    the key. *)
Definition field (v : pyval) (key : string) : option pyval :=
  match v with
  | PDict d => dict_lookup d key
  | _ => None
  end.

(** *** Code over the module global

    [M A] is a computation that may read and assign the module global and
    returns an [A], raises, or stays suspended in an [await] that never
    finishes.  An exception leaves the global as the last assignment made
    it. *)
Definition M (A : Type) : Type := pyval -> result A * pyval.

Definition ret {A} (a : A) : M A := fun g => (Return a, g).

Definition bind {A B} (m : M A) (k : A -> M B) : M B :=
  fun g =>
    match m g with
    | (Return a, g') => k a g'
    | (Raise e, g') => (Raise e, g')
    | (Pending, g') => (Pending, g')
    end.

Definition raise {A} (e : exn) : M A := fun g => (Raise e, g).

(** A call to a collaborator, which does not touch the global. *)
Definition call {A} (r : result A) : M A := fun g => (r, g).

Definition read_global : M pyval := fun g => (Return g, g).

Definition assign_global (v : pyval) : M unit := fun _ => (Return tt, v).

(** [try: body  except Exception as e: handler(e)].  A raised object that is
    not an instance of [Exception] passes through; what the handler raises is
    not caught by the same statement. *)
Definition try_except_Exception {A} (body : M A) (handler : exn -> M A) : M A :=
  fun g =>
    match body g with
    | (Return a, g') => (Return a, g')
    | (Raise e, g') =>
        if isinstance_Exception e then handler e g' else (Raise e, g')
    | (Pending, g') => (Pending, g')
    end.

End Py.

Import Py.

Declare Scope py_scope.
Delimit Scope py_scope with py.
Notation "x <- m ;; k" := (bind m (fun x => k))
  (at level 61, m at next level, right associativity) : py_scope.
Notation "m ;;; k" := (bind m (fun _ => k))
  (at level 61, right associativity) : py_scope.
Local Open Scope py_scope.

(** ** Text: decimal numbers, [repr] and JSON *)

Module Text.

Definition decimal (z : Z) : string := NilZero.string_of_int (Z.to_int z).

Fixpoint contains (c : ascii) (s : string) : bool :=
  match s with
  | EmptyString => false
  | String c' s' => Ascii.eqb c c' || contains c s'
  end.

Definition hex_digit (n : N) : ascii :=
  if (n <? 10)%N then ascii_of_N (48 + n) else ascii_of_N (87 + n).

(** One character of an ASCII text inside its [repr], between quotes [q]:
    the quote and the backslash take a backslash, newline, carriage return
    and tab their letter, every other control character its code. *)
Definition repr_char (q : ascii) (c : ascii) : string :=
  let n := N_of_ascii c in
  if Ascii.eqb c q || (n =? 92)%N then String "\"%char (String c EmptyString)
  else if (n =? 10)%N then "\n"
  else if (n =? 13)%N then "\r"
  else if (n =? 9)%N then "\t"
  else if (n <? 32)%N || (n =? 127)%N
       then "\x" ++ String (hex_digit (n / 16)) (String (hex_digit (n mod 16)) EmptyString)
  else String c EmptyString.

Fixpoint repr_body (q : ascii) (s : string) : string :=
  match s with
  | EmptyString => EmptyString
  | String c s' => repr_char q c ++ repr_body q s'
  end.

(** [repr] of an ASCII [str]: single quotes, unless the text holds a single
    quote and no double quote.  It is applied to the literals of the source
    only. *)
Definition str_repr (s : string) : string :=
  if contains "039"%char s && negb (contains "034"%char s)
  then dquote ++ repr_body "034"%char s ++ dquote
  else squote ++ repr_body "039"%char s ++ squote.

(** [HTTPException(status_code=c, detail=d)] as this module raises it, with
    an ASCII detail. *)
Definition HTTPException (status_code : Z) (detail : string) : exn :=
  {| exn_mro := ["HTTPException"; "Exception"; "BaseException"];
     exn_repr := "HTTPException(status_code=" ++ decimal status_code
                   ++ ", detail=" ++ str_repr detail ++ ")";
     exn_repr_raises := None;
     exn_http := Some (status_code, detail);
     exn_value := PNone |}.

(** [repr(e)]: the text, or what the [__repr__] of the class raises. *)
Definition repr (e : exn) : result string :=
  match exn_repr_raises e with
  | Some x => Raise x
  | None => Return (exn_repr e)
  end.

(** One character inside a JSON string ([ensure_ascii=False]): the quote,
    the backslash and the control characters are escaped. *)
Definition json_escape_char (c : ascii) : string :=
  let n := N_of_ascii c in
  if (n =? 34)%N then "\" ++ dquote
  else if (n =? 92)%N then "\\"
  else if (n =? 10)%N then "\n"
  else if (n =? 13)%N then "\r"
  else if (n =? 9)%N then "\t"
  else if (n =? 8)%N then "\b"
  else if (n =? 12)%N then "\f"
  else if (n <? 32)%N
       then "\u00" ++ String (hex_digit (n / 16)) (String (hex_digit (n mod 16)) EmptyString)
  else String c EmptyString.

Fixpoint json_escape (s : string) : string :=
  match s with
  | EmptyString => EmptyString
  | String c s' => json_escape_char c ++ json_escape s'
  end.

Definition json_string (s : string) : string :=
  dquote ++ json_escape s ++ dquote.

(** FastAPI passes what a handler returns through [jsonable_encoder],
    which leaves these values as they are but for the entries of a dict
    whose key starts with "_sa": those are dropped, at every depth. *)
Fixpoint jsonable_encoder (v : pyval) : pyval :=
  match v with
  | PList items =>
      PList ((fix encode_items (l : list pyval) : list pyval :=
                match l with
                | [] => []
                | x :: l' => jsonable_encoder x :: encode_items l'
                end) items)
  | PDict entries =>
      PDict ((fix encode_entries (l : list (string * pyval))
                : list (string * pyval) :=
                match l with
                | [] => []
                | (k, x) :: l' =>
                    if String.prefix "_sa" k then encode_entries l'
                    else (k, jsonable_encoder x) :: encode_entries l'
                end) entries)
  | _ => v
  end.

(** [json.dumps(v, ensure_ascii=False, allow_nan=False,
    separators=(",", ":"))], the rendering of [JSONResponse]; [None] stands
    for the [ValueError] raised on a float that is not finite. *)
Fixpoint json_dumps (v : pyval) : option string :=
  match v with
  | PNone => Some "null"
  | PBool true => Some "true"
  | PBool false => Some "false"
  | PInt z => Some (decimal z)
  | PFloat _ => None
  | PStr s => Some (json_string s)
  | PList items =>
      option_map (fun body => "[" ++ body ++ "]")
        ((fix dumps_items (l : list pyval) : option string :=
            match l with
            | [] => Some EmptyString
            | x :: l' =>
                match json_dumps x with
                | None => None
                | Some tx =>
                    match l' with
                    | [] => Some tx
                    | _ :: _ =>
                        option_map (fun rest => tx ++ "," ++ rest) (dumps_items l')
                    end
                end
            end) items)
  | PDict entries =>
      option_map (fun body => "{" ++ body ++ "}")
        ((fix dumps_entries (l : list (string * pyval)) : option string :=
            match l with
            | [] => Some EmptyString
            | (k, x) :: l' =>
                match json_dumps x with
                | None => None
                | Some tx =>
                    match l' with
                    | [] => Some (json_string k ++ ":" ++ tx)
                    | _ :: _ =>
                        option_map
                          (fun rest => json_string k ++ ":" ++ tx ++ "," ++ rest)
                          (dumps_entries l')
                    end
                end
            end) entries)
  end.

End Text.

(** ** UTF-8 and text-mode reading

    [Path.read_text(encoding="utf-8")] opens the file in text mode: the
    bytes are decoded strictly and, as [newline] is left at its default, the
    line endings CR LF and CR are translated to LF.  [HTMLResponse] encodes
    the text it is given as UTF-8 again.  A [str] is a list of code points. *)

Module Utf8.

Definition text : Type := list Z.

Definition code (b : byte) : Z := Z.of_N (Byte.to_N b).

Definition to_byte (z : Z) : byte :=
  match Byte.of_N (Z.to_N z) with
  | Some b => b
  | None => x00
  end.

Definition continuation (b : byte) : bool :=
  (128 <=? code b) && (code b <=? 191).

Definition surrogate (c : Z) : bool := (55296 <=? c) && (c <=? 57343).

(** A Unicode scalar value: what a strictly decoded or encodable [str]
    consists of. *)
Definition scalar (c : Z) : bool :=
  (0 <=? c) && (c <=? 1114111) && negb (surrogate c).

(** Strict decoding; [None] stands for [UnicodeDecodeError].  Overlong
    forms, surrogates, code points above U+10FFFF, stray continuation bytes
    and truncated sequences are rejected. *)
Fixpoint decode (bs : list byte) : option text :=
  match bs with
  | [] => Some []
  | b0 :: r0 =>
      if code b0 <? 128 then option_map (cons (code b0)) (decode r0)
      else
        match r0 with
        | [] => None
        | b1 :: r1 =>
            if (192 <=? code b0) && (code b0 <? 224) then
              let c := (code b0 - 192) * 64 + (code b1 - 128) in
              if continuation b1 && (128 <=? c)
              then option_map (cons c) (decode r1) else None
            else
              match r1 with
              | [] => None
              | b2 :: r2 =>
                  if (224 <=? code b0) && (code b0 <? 240) then
                    let c := (code b0 - 224) * 4096 + (code b1 - 128) * 64
                             + (code b2 - 128) in
                    if continuation b1 && continuation b2
                       && (2048 <=? c) && negb (surrogate c)
                    then option_map (cons c) (decode r2) else None
                  else
                    match r2 with
                    | [] => None
                    | b3 :: r3 =>
                        if (240 <=? code b0) && (code b0 <? 248) then
                          let c := (code b0 - 240) * 262144
                                   + (code b1 - 128) * 4096
                                   + (code b2 - 128) * 64 + (code b3 - 128) in
                          if continuation b1 && continuation b2
                             && continuation b3
                             && (65536 <=? c) && (c <=? 1114111)
                          then option_map (cons c) (decode r3) else None
                        else None
                    end
              end
        end
  end.

Definition encode_code_point (c : Z) : list byte :=
  if c <? 128 then [to_byte c]
  else if c <? 2048 then [to_byte (192 + c / 64); to_byte (128 + c mod 64)]
  else if c <? 65536 then
    [to_byte (224 + c / 4096); to_byte (128 + (c / 64) mod 64);
     to_byte (128 + c mod 64)]
  else
    [to_byte (240 + c / 262144); to_byte (128 + (c / 4096) mod 64);
     to_byte (128 + (c / 64) mod 64); to_byte (128 + c mod 64)].

(** Strict encoding; [None] stands for [UnicodeEncodeError], raised on a
    surrogate. *)
Fixpoint encode (t : text) : option (list byte) :=
  match t with
  | [] => Some []
  | c :: t' =>
      if scalar c
      then option_map (app (encode_code_point c)) (encode t')
      else None
  end.

(** Universal newlines on reading: CR LF and a lone CR become LF. *)
Fixpoint universal_newlines (t : text) : text :=
  match t with
  | [] => []
  | c :: r =>
      if c =? 13 then
        10 :: match r with
              | [] => []
              | c' :: r' =>
                  if c' =? 10 then universal_newlines r'
                  else universal_newlines r
              end
      else c :: universal_newlines r
  end.

(** The text of a literal of the source, whose characters are ASCII. *)
Fixpoint of_string (s : string) : text :=
  match s with
  | EmptyString => []
  | String c s' => Z.of_N (N_of_ascii c) :: of_string s'
  end.

End Utf8.

(** ** backend/main.py *)

Module Main.

Import Text Utf8.

(** *** The collaborators

    [process_stream_once] and [generate_insights] are imported from the
    pipeline, or replaced by the stubs of lines 18-34.  A [pipeline] records
    how they behave during one polling cycle: whether the snapshot function
    is a coroutine function, what its body does when it is called in this
    cycle, and what the insights generator does on each argument. *)
Record pipeline : Type := {
  iscoroutinefunction : bool;
  process_stream_once : result pyval;
  generate_insights : pyval -> result pyval
}.

(** The fallback stubs. *)
Definition stub_pipeline : pipeline := {|
  iscoroutinefunction := true;
  process_stream_once :=
    Return (PDict [("rally_count", PInt 0); ("heatmaps", PDict []);
                   ("player_stats", PDict []); ("last_updated", PNone)]);
  generate_insights := fun _ =>
    Return (PDict [("tips",
                    PList [PStr "AI pipeline not loaded — no tips available yet."])])
|}.

(** What awaiting [f()] gives for a coroutine function [f] whose body has
    the given outcome: a [StopIteration] that would leave the body of a
    coroutine is replaced by a [RuntimeError]. *)
Definition coroutine {A} (r : result A) : result A :=
  match r with
  | Raise e =>
      if isinstance e "StopIteration"
      then Raise (PyException "RuntimeError"
                    "RuntimeError('coroutine raised StopIteration')")
      else Raise e
  | _ => r
  end.

(** What awaiting [asyncio.to_thread(f)] gives for a plain function [f]
    (CPython 3.11).  The exception of the worker thread is copied into the
    future of the event loop: an object whose type is [StopIteration] cannot
    be set on that future, which then stays pending for ever; an instance of
    a subclass of [StopIteration] ends the [await] as a return would, with
    its [value]; and an object whose type is
    [concurrent.futures.CancelledError] is replaced by an
    [asyncio.CancelledError] of the same arguments, which is no
    [Exception].  [inj] takes a Python value to what the caller handles. *)
Definition to_thread {A} (inj : pyval -> A) (r : result A) : result A :=
  match r with
  | Raise e =>
      if type_is e "StopIteration" then Pending
      else if isinstance e "StopIteration" then Return (inj (exn_value e))
      else if type_is e "concurrent.futures.CancelledError"
      then Raise (PyBaseException "asyncio.CancelledError" (exn_repr e))
      else Raise e
  | _ => r
  end.

(** [await]: the outcome is handed to the awaiting coroutine. *)
Definition await {A} (r : result A) : M A := call r.

(** What the [await] of lines 64-67 hands to the loop. *)
Definition delivered (p : pipeline) : result pyval :=
  if iscoroutinefunction p
  then coroutine (process_stream_once p)
  else to_thread (fun v => v) (process_stream_once p).

(** Time is not observed: sleeping returns. *)
Definition asyncio_sleep (seconds : Z) : M unit := ret tt.

(** Line 45. *)
Definition LATEST_STATS : pyval :=
  PDict [("status", PStr "starting"); ("stats", PDict []); ("tips", PDict [])].

(** Line 46, in seconds. *)
Definition PROCESSING_INTERVAL_SECONDS : Z := 1.

Definition insights_failed : pyval :=
  PDict [("error", PStr "insights generation failed")].

(** *** The refresh loop, lines 55-90

    One pass through the body of [while True]. *)
Definition loop_iteration (p : pipeline) : M unit :=
  try_except_Exception
    (stats <- (if iscoroutinefunction p
               then await (coroutine (process_stream_once p))
               else await (to_thread (fun v => v) (process_stream_once p))) ;;
     tips <- try_except_Exception
               (call (generate_insights p stats))
               (fun _ => ret insights_failed) ;;
     assign_global
       (PDict [("status", PStr "ok"); ("stats", stats); ("tips", tips)]))
    (fun e =>
       text <- call (repr e) ;;
       g1 <- read_global ;;
       stats <- call (method_get g1 "stats" (PDict [])) ;;
       g2 <- read_global ;;
       tips <- call (method_get g2 "tips" (PDict [])) ;;
       assign_global
         (PDict [("status", PStr "error"); ("error", PStr text);
                 ("stats", stats); ("tips", tips)])) ;;;
  asyncio_sleep PROCESSING_INTERVAL_SECONDS.

(** [while True] over the cycles observed so far, one [pipeline] per cycle.
    The computation returns when every one of them has completed, raises
    when an exception leaves the coroutine, and is pending when an await
    or a call of some cycle never finishes. *)
Fixpoint _processing_loop (cycles : list pipeline) : M unit :=
  match cycles with
  | [] => ret tt
  | p :: rest => loop_iteration p ;;; _processing_loop rest
  end.

(** What becomes of the server when an exception leaves the coroutine:
    the task ends and the event loop goes on serving, but [SystemExit] and
    [KeyboardInterrupt] are raised again out of the event loop and end the
    process ([asyncio.Task.__step]). *)
Definition ends_process (e : exn) : bool :=
  isinstance e "SystemExit" || isinstance e "KeyboardInterrupt".

(** The stored value after the given cycles, from the value at start-up. *)
Definition stored_after (cycles : list pipeline) : pyval :=
  snd (_processing_loop cycles LATEST_STATS).

(** How many passes through the loop body completed. *)
Fixpoint completed (cycles : list pipeline) (g : pyval) : nat :=
  match cycles with
  | [] => O
  | p :: rest =>
      match loop_iteration p g with
      | (Return _, g') => S (completed rest g')
      | (Raise _, _) => O
      | (Pending, _) => O
      end
  end.

(** *** The loop body statement by statement

    The places at which the coroutine can be between two statements, with
    the locals live there, for a reader that runs in between. *)
Inductive point : Type :=
| AtSnapshot
| AtInsights (stats : pyval)
| AtStoreOk (stats tips : pyval)
| AtHandlerStats (e : exn)
| AtHandlerTips (text : string) (stats : pyval)
| AtStoreError (text : string) (stats tips : pyval)
| AtSleep
| Dead (e : exn)
| Stuck.

Definition step (p : pipeline) (c : point * pyval) : point * pyval :=
  let (pt, g) := c in
  match pt with
  | AtSnapshot =>
      match (if iscoroutinefunction p
             then coroutine (process_stream_once p)
             else to_thread (fun v => v) (process_stream_once p)) with
      | Return stats => (AtInsights stats, g)
      | Raise e =>
          if isinstance_Exception e then (AtHandlerStats e, g) else (Dead e, g)
      | Pending => (Stuck, g)
      end
  | AtInsights stats =>
      match generate_insights p stats with
      | Return tips => (AtStoreOk stats tips, g)
      | Raise e =>
          if isinstance_Exception e
          then (AtStoreOk stats insights_failed, g)
          else (Dead e, g)
      | Pending => (Stuck, g)
      end
  | AtStoreOk stats tips =>
      (AtSleep, PDict [("status", PStr "ok"); ("stats", stats); ("tips", tips)])
  | AtHandlerStats e =>
      match repr e with
      | Return text =>
          match method_get g "stats" (PDict []) with
          | Return stats => (AtHandlerTips text stats, g)
          | Raise e' => (Dead e', g)
          | Pending => (Stuck, g)
          end
      | Raise e' => (Dead e', g)
      | Pending => (Stuck, g)
      end
  | AtHandlerTips text stats =>
      match method_get g "tips" (PDict []) with
      | Return tips => (AtStoreError text stats tips, g)
      | Raise e' => (Dead e', g)
      | Pending => (Stuck, g)
      end
  | AtStoreError text stats tips =>
      (AtSleep, PDict [("status", PStr "error"); ("error", PStr text);
                       ("stats", stats); ("tips", tips)])
  | AtSleep => (AtSleep, g)
  | Dead e => (Dead e, g)
  | Stuck => (Stuck, g)
  end.

Fixpoint steps (n : nat) (p : pipeline) (c : point * pyval) : point * pyval :=
  match n with
  | O => c
  | S n' => steps n' p (step p c)
  end.

(** *** The stats route, lines 127-132 *)
Definition api_stats : M pyval :=
  g <- read_global ;;
  if is_None g
  then raise (HTTPException 503 "Stats not available yet")
  else read_global.

(** *** The page routes, lines 93-124 *)

(** What is found at a path.  [File content] is an object that exists and
    that the server can read, with the bytes the read yields; [Directory] is
    a directory; [Unreadable content] is a regular file with these bytes
    that the server may not open; [Failing at_stat cls text] is an object
    on which [stat] (when [at_stat]) or else opening or reading raises the
    [OSError] of class [cls] and [repr] [text]. *)
Inductive node : Type :=
| File (content : list byte)
| Directory
| Unreadable (content : list byte)
| Failing (at_stat : bool) (cls text : string).

(** The files at the time of a request, by path; [None] where [stat] finds
    nothing. *)
Definition filesystem : Type := string -> option node.

(** [Path(dir) / name] for a relative [name]. *)
Definition path_join (dir name : string) : string := dir ++ "/" ++ name.

Definition OSError (cls text : string) : exn :=
  {| exn_mro := [cls; "OSError"; "Exception"; "BaseException"];
     exn_repr := text; exn_repr_raises := None; exn_http := None;
     exn_value := PNone |}.

(** The exceptions of [read_text]; their [repr] abbreviates the arguments,
    which no code here reads. *)
Definition FileNotFoundError : exn :=
  OSError "FileNotFoundError" "FileNotFoundError(2, 'No such file or directory')".
Definition IsADirectoryError : exn :=
  OSError "IsADirectoryError" "IsADirectoryError(21, 'Is a directory')".
Definition PermissionError : exn :=
  OSError "PermissionError" "PermissionError(13, 'Permission denied')".
Definition UnicodeDecodeError : exn :=
  {| exn_mro := ["UnicodeDecodeError"; "UnicodeError"; "ValueError";
                 "Exception"; "BaseException"];
     exn_repr := "UnicodeDecodeError('utf-8', ...)"; exn_repr_raises := None;
     exn_http := None; exn_value := PNone |}.

(** [Path.exists()]: [stat] decides; an [OSError] other than "nothing
    there" is raised again. *)
Definition exists_ (fs : filesystem) (path : string) : result bool :=
  match fs path with
  | None => Return false
  | Some (Failing true cls text) => Raise (OSError cls text)
  | Some _ => Return true
  end.

Definition read_text (fs : filesystem) (path : string) : result text :=
  match fs path with
  | None => Raise FileNotFoundError
  | Some Directory => Raise IsADirectoryError
  | Some (Unreadable _) => Raise PermissionError
  | Some (Failing _ cls text) => Raise (OSError cls text)
  | Some (File content) =>
      match decode content with
      | Some t => Return (universal_newlines t)
      | None => Raise UnicodeDecodeError
      end
  end.

Definition _read_frontend_html (fs : filesystem) (name : string) : result text :=
  let html_path := path_join "frontend" name in
  match exists_ fs html_path with
  | Return found =>
      if negb found
      then Raise (HTTPException 404 (name ++ " not found"))
      else read_text fs html_path
  | Raise e => Raise e
  | Pending => Pending
  end.

Definition home (fs : filesystem) := _read_frontend_html fs "analysis.html".
Definition analysis_page (fs : filesystem) := _read_frontend_html fs "analysis.html".
Definition technique_page (fs : filesystem) := _read_frontend_html fs "technique.html".
Definition tactical_page (fs : filesystem) := _read_frontend_html fs "tactical.html".
Definition highlights_page (fs : filesystem) := _read_frontend_html fs "highlights.html".

(** *** Routing and responses

    The decorators bind a path to a handler and a response class; the
    framework turns the handler's outcome into a response. *)
Inductive page_route : Type :=
| Root | AnalysisHtml | TechniqueHtml | TacticalHtml | HighlightsHtml.

Definition url (r : page_route) : string :=
  match r with
  | Root => "/"
  | AnalysisHtml => "/analysis.html"
  | TechniqueHtml => "/technique.html"
  | TacticalHtml => "/tactical.html"
  | HighlightsHtml => "/highlights.html"
  end.

Definition page_handler (r : page_route) : filesystem -> result text :=
  match r with
  | Root => home
  | AnalysisHtml => analysis_page
  | TechniqueHtml => technique_page
  | TacticalHtml => tactical_page
  | HighlightsHtml => highlights_page
  end.

Record response : Type := { status : Z; body : list byte }.

Definition internal_server_error : response :=
  {| status := 500; body := list_byte_of_string "Internal Server Error" |}.

(** An [HTTPException] is answered with its status and a JSON body holding
    the detail; any other exception, from the handler or from the
    rendering, with a plain 500.  The handlers of this module always
    finish, so the last case is never met. *)
Definition respond {A} (render : A -> option (list byte)) (r : result A)
  : response :=
  match r with
  | Return a =>
      match render a with
      | Some b => {| status := 200; body := b |}
      | None => internal_server_error
      end
  | Raise e =>
      match exn_http e with
      | Some (c, d) =>
          {| status := c;
             body := list_byte_of_string
                       ("{" ++ json_string "detail" ++ ":" ++ json_string d ++ "}") |}
      | None => internal_server_error
      end
  | Pending => internal_server_error
  end.

Definition HTMLResponse : result text -> response := respond encode.

Definition JSONResponse : result pyval -> response :=
  respond (fun v => option_map list_byte_of_string (json_dumps (jsonable_encoder v))).

Definition GET_page (r : page_route) (fs : filesystem) : response :=
  HTMLResponse (page_handler r fs).

Definition GET_api_stats (g : pyval) : response :=
  JSONResponse (fst (api_stats g)).

End Main.

Import Text Utf8 Main.

(** ** The refresh loop over objects with identity

    Lines 77-78 and 85-86 put into the record the very objects the
    collaborators returned and the previous record held, not copies.  Here
    the objects of the pipeline live in a heap, the collaborators may change
    them in place, and a record holds references.  The record dict itself is
    built by the loop and nothing else refers to it. *)

Module Shared.

Definition address : Type := nat.

(** The contents of the pipeline's objects. *)
Definition heap : Type := address -> pyval.

Definition update (h : heap) (a : address) (v : pyval) : heap :=
  fun b => if Nat.eqb b a then v else h b.

(** A value of the record: one the loop built itself (a status, a [repr],
    the marker, an empty dict), or a reference to an object of the
    pipeline. *)
Inductive slot : Type :=
| Lit (v : pyval)
| Obj (a : address).

Definition record : Type := list (string * slot).

Fixpoint get (g : record) (key : string) (default : slot) : slot :=
  match g with
  | [] => default
  | (k, x) :: g' => if String.eqb k key then x else get g' key default
  end.

(** The collaborators during one cycle: each call may change the heap and
    hands over a reference.  The insights generator is given what the loop
    holds as the snapshot. *)
Record pipeline : Type := {
  iscoroutinefunction : bool;
  process_stream_once : heap -> result address * heap;
  generate_insights : slot -> heap -> result address * heap
}.

(** The outcome of a call as the loop holds it. *)
Definition handed (r : result address) : result slot :=
  match r with
  | Return a => Return (Obj a)
  | Raise e => Raise e
  | Pending => Pending
  end.

Definition LATEST_STATS : record :=
  [("status", Lit (PStr "starting")); ("stats", Lit (PDict []));
   ("tips", Lit (PDict []))].

Inductive point : Type :=
| AtSnapshot
| AtInsights (stats : slot)
| AtStoreOk (stats tips : slot)
| AtHandlerStats (e : exn)
| AtHandlerTips (text : string) (stats : slot)
| AtStoreError (text : string) (stats tips : slot)
| AtSleep
| Dead (e : exn)
| Stuck.

(** The loop body of lines 62-90 statement by statement, over the heap and
    the global. *)
Definition step (p : pipeline) (c : point * heap * record)
  : point * heap * record :=
  let '(pt, h, g) := c in
  match pt with
  | AtSnapshot =>
      let (r, h') := process_stream_once p h in
      match (if iscoroutinefunction p
             then Main.coroutine (handed r)
             else Main.to_thread Lit (handed r)) with
      | Return stats => (AtInsights stats, h', g)
      | Raise e =>
          if isinstance_Exception e
          then (AtHandlerStats e, h', g) else (Dead e, h', g)
      | Pending => (Stuck, h', g)
      end
  | AtInsights stats =>
      let (r, h') := generate_insights p stats h in
      match r with
      | Return tips => (AtStoreOk stats (Obj tips), h', g)
      | Raise e =>
          if isinstance_Exception e
          then (AtStoreOk stats (Lit Main.insights_failed), h', g)
          else (Dead e, h', g)
      | Pending => (Stuck, h', g)
      end
  | AtStoreOk stats tips =>
      (AtSleep, h,
       [("status", Lit (PStr "ok")); ("stats", stats); ("tips", tips)])
  | AtHandlerStats e =>
      match Text.repr e with
      | Return text => (AtHandlerTips text (get g "stats" (Lit (PDict []))), h, g)
      | Raise e' => (Dead e', h, g)
      | Pending => (Stuck, h, g)
      end
  | AtHandlerTips text stats =>
      (AtStoreError text stats (get g "tips" (Lit (PDict []))), h, g)
  | AtStoreError text stats tips =>
      (AtSleep, h,
       [("status", Lit (PStr "error")); ("error", Lit (PStr text));
        ("stats", stats); ("tips", tips)])
  | AtSleep => (AtSleep, h, g)
  | Dead e => (Dead e, h, g)
  | Stuck => (Stuck, h, g)
  end.

Fixpoint steps (n : nat) (p : pipeline) (c : point * heap * record)
  : point * heap * record :=
  match n with
  | O => c
  | S n' => steps n' p (step p c)
  end.

(** A pass: four steps end it, whichever way it goes. *)
Definition pass (p : pipeline) (h : heap) (g : record) : point * heap * record :=
  steps 4 p (AtSnapshot, h, g).

(** What a reader that follows the references of the record finds. *)
Definition deref (h : heap) (x : slot) : pyval :=
  match x with
  | Lit v => v
  | Obj a => h a
  end.

Definition view (h : heap) (g : record) : pyval :=
  PDict (map (fun kx => (fst kx, deref h (snd kx))) g).

(** The objects a record refers to. *)
Definition refers (g : record) (a : address) : Prop :=
  exists k, In (k, Obj a) g.

(** The collaborators leave the objects of the record as they are. *)
Definition preserves (p : pipeline) (g : record) : Prop :=
  (forall h a, refers g a -> snd (process_stream_once p h) a = h a)
  /\ (forall stats h a, refers g a -> snd (generate_insights p stats h) a = h a).

(** What the [await] of lines 64-67 hands to the loop. *)
Definition delivered (p : pipeline) (h : heap) : result slot :=
  if iscoroutinefunction p
  then Main.coroutine (handed (fst (process_stream_once p h)))
  else Main.to_thread Lit (handed (fst (process_stream_once p h))).

(** What holds of the coroutine before the assignment that ends a pass
    started with heap [h] and record [g]: the global is still [g], and the
    objects it refers to are as they were if the collaborators leave them
    alone. *)
Definition early (p : pipeline) (h : heap) (g : record)
           (c : point * heap * record) : Prop :=
  snd c = g
  /\ (preserves p g -> forall a, refers g a -> snd (fst c) a = h a).

(** The loop over the cycles observed so far; it stops where a pass ends
    dead or stuck. *)
Fixpoint run (cycles : list pipeline) (h : heap) (g : record)
  : point * heap * record :=
  match cycles with
  | [] => (AtSleep, h, g)
  | p :: rest =>
      match pass p h g with
      | (AtSleep, h', g') => run rest h' g'
      | c => c
      end
  end.

End Shared.

(** ** Concrete collaborators and files *)

Module Examples.

(** The example of the testable properties: a snapshot holding five
    rallies and one tip. *)
Definition rally_pipeline : pipeline := {|
  iscoroutinefunction := false;
  process_stream_once := Return (PDict [("rally_count", PInt 5)]);
  generate_insights := fun _ => Return (PDict [("tips", PList [PStr "good rally"])])
|}.

Definition rally_json : string :=
  "{" ++ dquote ++ "status" ++ dquote ++ ":" ++ dquote ++ "ok" ++ dquote ++ ","
      ++ dquote ++ "stats" ++ dquote ++ ":{" ++ dquote ++ "rally_count" ++ dquote ++ ":5},"
      ++ dquote ++ "tips" ++ dquote ++ ":{" ++ dquote ++ "tips" ++ dquote ++ ":["
      ++ dquote ++ "good rally" ++ dquote ++ "]}}".

(** A camera that cannot be opened: the snapshot function raises an
    [Exception]. *)
Definition camera_offline : exn :=
  PyException "RuntimeError" "RuntimeError('camera offline')".

Definition offline_pipeline : pipeline := {|
  iscoroutinefunction := false;
  process_stream_once := Raise camera_offline;
  generate_insights := generate_insights stub_pipeline
|}.

(** A snapshot function that calls [sys.exit(1)]. *)
Definition system_exit : exn := PyBaseException "SystemExit" "SystemExit(1)".

Definition exiting_pipeline : pipeline := {|
  iscoroutinefunction := false;
  process_stream_once := Raise system_exit;
  generate_insights := generate_insights stub_pipeline
|}.

(** An insights generator that fails with a [KeyError]. *)
Definition key_error : exn := PyException "KeyError" "KeyError('rally_count')".

Definition no_insights_pipeline : pipeline := {|
  iscoroutinefunction := true;
  process_stream_once := process_stream_once stub_pipeline;
  generate_insights := fun _ => Raise key_error
|}.

(** An insights generator that calls [sys.exit(1)]. *)
Definition exiting_insights_pipeline : pipeline := {|
  iscoroutinefunction := true;
  process_stream_once := process_stream_once stub_pipeline;
  generate_insights := fun _ => Raise system_exit
|}.

(** A snapshot that holds a float that is not a number. *)
Definition nan_pipeline : pipeline := {|
  iscoroutinefunction := true;
  process_stream_once := Return (PDict [("speed", PFloat NaN)]);
  generate_insights := generate_insights stub_pipeline
|}.

(** A plain snapshot function that lets a [StopIteration] escape, and one
    that lets a [concurrent.futures.CancelledError] escape. *)
Definition stop_iteration : exn := PyException "StopIteration" "StopIteration()".

Definition exhausted_pipeline : pipeline := {|
  iscoroutinefunction := false;
  process_stream_once := Raise stop_iteration;
  generate_insights := generate_insights stub_pipeline
|}.

(** A plain snapshot function that raises an instance of a subclass of
    [StopIteration] carrying the value 7. *)
Definition stop_subclass : exn :=
  {| exn_mro := ["MyStop"; "StopIteration"; "Exception"; "BaseException"];
     exn_repr := "MyStop(7)"; exn_repr_raises := None; exn_http := None;
     exn_value := PInt 7 |}.

Definition stopping_pipeline : pipeline := {|
  iscoroutinefunction := false;
  process_stream_once := Raise stop_subclass;
  generate_insights := generate_insights stub_pipeline
|}.

(** A snapshot function that raises an exception of a class whose
    [__repr__] fails. *)
Definition unprintable : exn :=
  {| exn_mro := ["Unprintable"; "Exception"; "BaseException"];
     exn_repr := EmptyString;
     exn_repr_raises := Some (PyException "ValueError" "ValueError('no repr')");
     exn_http := None; exn_value := PNone |}.

Definition unprintable_pipeline : pipeline := {|
  iscoroutinefunction := true;
  process_stream_once := Raise unprintable;
  generate_insights := generate_insights stub_pipeline
|}.

Definition future_cancelled : exn :=
  {| exn_mro := ["concurrent.futures.CancelledError"; "concurrent.futures.Error";
                 "Exception"; "BaseException"];
     exn_repr := "CancelledError()"; exn_repr_raises := None; exn_http := None;
     exn_value := PNone |}.

Definition cancelled_pipeline : pipeline := {|
  iscoroutinefunction := false;
  process_stream_once := Raise future_cancelled;
  generate_insights := generate_insights stub_pipeline
|}.

(** A pipeline that keeps one dict, at address 0, and updates it in place
    at every call: in cycle [k] it writes the rally count [k] into it and
    hands it over; the tips are a new object each time, at address [k]. *)
Definition in_place_pipeline (k : nat) : Shared.pipeline := {|
  Shared.iscoroutinefunction := false;
  Shared.process_stream_once := fun h =>
    (Return O, Shared.update h O (PDict [("rally_count", PInt (Z.of_nat k))]));
  Shared.generate_insights := fun _ h =>
    (Return k, Shared.update h k (PDict [("cycle", PInt (Z.of_nat k))]))
|}.

(** A pipeline whose snapshot function fails after it has started to
    rewrite the dict it handed over before. *)
Definition half_done_pipeline : Shared.pipeline := {|
  Shared.iscoroutinefunction := false;
  Shared.process_stream_once := fun h =>
    (Raise camera_offline, Shared.update h O (PDict []));
  Shared.generate_insights := fun _ h => (Pending, h)
|}.

(** A pipeline that hands over new objects and changes no other. *)
Definition fresh_pipeline (k : nat) : Shared.pipeline := {|
  Shared.iscoroutinefunction := true;
  Shared.process_stream_once := fun h =>
    (Return (2 * k)%nat,
     Shared.update h (2 * k)%nat (PDict [("rally_count", PInt (Z.of_nat k))]));
  Shared.generate_insights := fun _ h =>
    (Return (2 * k + 1)%nat,
     Shared.update h (2 * k + 1)%nat (PDict [("cycle", PInt (Z.of_nat k))]))
|}.

Definition no_objects : Shared.heap := fun _ => PNone.

(** File systems holding no file or a single one. *)
Definition no_files : filesystem := fun _ => None.

Definition single_file (path : string) (n : node) : filesystem :=
  fun q => if String.eqb q path then Some n else None.

(** A page saved as Latin-1: the byte E9 is an e with acute accent there and
    starts a sequence that never ends in UTF-8. *)
Definition latin1_page : list byte := [x3c; x70; x3e; xe9; x3c; x2f; x70; x3e].

(** A page with a Windows line ending. *)
Definition crlf_page : list byte := [x3c; x70; x3e; x0d; x0a].

(** A page with characters of two, three and four bytes. *)
Definition utf8_page : list byte :=
  [x3c; x68; x31; x3e; xc3; xa9; xe2; x82; xac; xf0; x9f; x98; x80; x0a].

End Examples.

Import Examples.

(** ** Vocabulary of the properties *)

Module Props.

(** An instance of [Exception] of no class that the event loop treats in
    a way of its own, neither a [StopIteration] nor a
    [concurrent.futures.CancelledError], and whose [repr] can be taken. *)
Definition ordinary (e : exn) : bool :=
  isinstance_Exception e
  && negb (isinstance e "StopIteration")
  && negb (isinstance e "concurrent.futures.CancelledError")
  && match exn_repr_raises e with None => true | Some _ => false end.

(** Both collaborators finish during the cycle; what the snapshot function
    raises is an ordinary exception, and what the insights generator raises
    is an instance of [Exception], the class the two [except] clauses
    name. *)
Definition raises_only_Exception (p : pipeline) : Prop :=
  process_stream_once p <> Pending
  /\ (forall e, process_stream_once p = Raise e -> ordinary e = true)
  /\ (forall stats, generate_insights p stats <> Pending)
  /\ (forall stats e,
        generate_insights p stats = Raise e -> isinstance_Exception e = true).

(** The status of a stored record is one of the three of the data model. *)
Definition status_known (g : pyval) : Prop :=
  field g "status" = Some (PStr "starting")
  \/ field g "status" = Some (PStr "ok")
  \/ field g "status" = Some (PStr "error").

(** What a reader that runs at some point of the cycle [p], started with
    [g] stored, can find in the global. *)
Definition observable (p : pipeline) (g v : pyval) : Prop :=
  exists n, snd (steps n p (AtSnapshot, g)) = v.

(** The file name each page handler passes to [_read_frontend_html], and
    its path. *)
Definition backing_file (r : page_route) : string :=
  match r with
  | Root | AnalysisHtml => "analysis.html"
  | TechniqueHtml => "technique.html"
  | TacticalHtml => "tactical.html"
  | HighlightsHtml => "highlights.html"
  end.

Definition backing_path (r : page_route) : string :=
  path_join "frontend" (backing_file r).

End Props.

Import Props.

(** ** Vocabulary of the further properties *)

Module Behaviour.

(** The three forms a record stored by this module has: the one of line 45,
    the one of lines 75-79 and the one of lines 82-87. *)
Definition well_shaped (g : pyval) : Prop :=
  g = LATEST_STATS
  \/ (exists stats tips,
        g = PDict [("status", PStr "ok"); ("stats", stats); ("tips", tips)])
  \/ (exists description stats tips,
        g = PDict [("status", PStr "error"); ("error", PStr description);
                   ("stats", stats); ("tips", tips)]).

(** Whatever the heap, the snapshot function fails during the cycle with
    an ordinary exception. *)
Definition snapshot_fails (q : Shared.pipeline) : Prop :=
  forall h, exists e,
    fst (Shared.process_stream_once q h) = Raise e /\ ordinary e = true.

Definition is_dict (g : pyval) : bool :=
  match g with PDict _ => true | _ => false end.

(** What the loop stores when both collaborators are the fallback stubs of
    lines 18-34. *)
Definition stub_record : pyval :=
  PDict [("status", PStr "ok");
         ("stats", PDict [("rally_count", PInt 0); ("heatmaps", PDict []);
                          ("player_stats", PDict []); ("last_updated", PNone)]);
         ("tips", PDict [("tips",
                          PList [PStr "AI pipeline not loaded — no tips available yet."])])].

End Behaviour.

Import Behaviour.

(** * Properties *)

(** ** One pass through the loop body *)

Section LoopBody.

Variable p : pipeline.

(** Both branches of the [iscoroutinefunction] test hand over what the
    event loop delivers. *)
Lemma snapshot_call (g : pyval) :
  (if iscoroutinefunction p
   then await (coroutine (process_stream_once p))
   else await (to_thread (fun v => v) (process_stream_once p))) g
  = (delivered p, g).
Proof. unfold delivered. destruct (iscoroutinefunction p); reflexivity. Qed.

(** A value the snapshot function returns reaches the loop. *)
Lemma delivered_of_Return (s : pyval) :
  process_stream_once p = Return s -> delivered p = Return s.
Proof.
  unfold delivered. intros ->. destruct (iscoroutinefunction p); reflexivity.
Qed.

Lemma type_is_isinstance (e : exn) (C : string) :
  type_is e C = true -> isinstance e C = true.
Proof.
  unfold type_is, isinstance. destruct (exn_mro e) as [| c l]; [discriminate |].
  intro H. cbn [existsb]. rewrite String.eqb_sym, H. reflexivity.
Qed.

(** What reaches the loop as a value is what the snapshot function
    returned, or the [value] of an instance of a subclass of
    [StopIteration] that a plain function raised. *)
Lemma delivered_Return_inv (s : pyval) :
  delivered p = Return s ->
  process_stream_once p = Return s
  \/ (iscoroutinefunction p = false
      /\ exists e, process_stream_once p = Raise e
                   /\ isinstance e "StopIteration" = true
                   /\ type_is e "StopIteration" = false
                   /\ exn_value e = s).
Proof.
  unfold delivered, coroutine, to_thread.
  destruct (iscoroutinefunction p);
    destruct (process_stream_once p) as [s' | e |]; try discriminate; auto.
  - destruct (isinstance e "StopIteration"); discriminate.
  - destruct (type_is e "StopIteration") eqn:T; [discriminate |].
    destruct (isinstance e "StopIteration") eqn:I.
    + intros [= <-]. right. split; [reflexivity |]. exists e. auto.
    + destruct (type_is e "concurrent.futures.CancelledError"); discriminate.
Qed.

(** An exception that is no [StopIteration] never reaches the loop as a
    value. *)
Lemma delivered_Raise (e : exn) :
  process_stream_once p = Raise e ->
  isinstance e "StopIteration" = false ->
  forall s, delivered p <> Return s.
Proof.
  intros E H s Hd. destruct (delivered_Return_inv s Hd) as [H' | (_ & e' & H' & I & _)].
  - congruence.
  - rewrite E in H'. injection H' as <-. congruence.
Qed.

Lemma ordinary_inv (e : exn) :
  ordinary e = true ->
  isinstance_Exception e = true
  /\ isinstance e "StopIteration" = false
  /\ isinstance e "concurrent.futures.CancelledError" = false
  /\ repr e = Return (exn_repr e).
Proof.
  unfold ordinary, repr. intro H.
  apply andb_true_iff in H as [H Hr]. apply andb_true_iff in H as [H Hc].
  apply andb_true_iff in H as [He Hs]. apply negb_true_iff in Hs, Hc.
  destruct (exn_repr_raises e); [discriminate | auto].
Qed.

Lemma ordinary_repr (e : exn) :
  ordinary e = true -> exn_repr_raises e = None.
Proof.
  unfold ordinary. intro H. apply andb_true_iff in H as [_ Hr].
  destruct (exn_repr_raises e); [discriminate | reflexivity].
Qed.

(** An exception of the snapshot function that is ordinary reaches the
    loop as it was raised, whatever the kind of the function. *)
Lemma ordinary_delivery (A : Type) (inj : pyval -> A) (r : result A)
      (e : exn) (b : bool) :
  r = Raise e -> ordinary e = true ->
  (if b then coroutine r else to_thread inj r) = Raise e
  /\ isinstance_Exception e = true.
Proof.
  intros -> H. destruct (ordinary_inv e H) as (He & Hs & Hc & _).
  split; [| exact He].
  unfold coroutine, to_thread. rewrite Hs.
  destruct (type_is e "StopIteration") eqn:T1.
  { apply type_is_isinstance in T1. congruence. }
  destruct (type_is e "concurrent.futures.CancelledError") eqn:T2.
  { apply type_is_isinstance in T2. congruence. }
  destruct b; reflexivity.
Qed.

(** An ordinary exception of the snapshot function reaches the loop as it
    was raised, from a coroutine and through a thread alike. *)
Lemma delivered_ordinary (e : exn) :
  process_stream_once p = Raise e -> ordinary e = true ->
  delivered p = Raise e /\ isinstance_Exception e = true.
Proof.
  intros E H. unfold delivered.
  apply (ordinary_delivery _ (fun v => v) _ e (iscoroutinefunction p) E H).
Qed.

Lemma loop_iteration_unfold (g : pyval) :
  loop_iteration p g =
  match delivered p with
  | Return stats =>
      match generate_insights p stats with
      | Return tips =>
          (Return tt,
           PDict [("status", PStr "ok"); ("stats", stats); ("tips", tips)])
      | Raise e =>
          if isinstance_Exception e
          then (Return tt,
                PDict [("status", PStr "ok"); ("stats", stats);
                       ("tips", insights_failed)])
          else
            (Raise e, g)
      | Pending => (Pending, g)
      end
  | Raise e =>
      if isinstance_Exception e then
        match exn_repr_raises e with
        | Some x => (Raise x, g)
        | None =>
            match g with
            | PDict d =>
                (Return tt,
                 PDict [("status", PStr "error"); ("error", PStr (exn_repr e));
                        ("stats", dict_get d "stats" (PDict []));
                        ("tips", dict_get d "tips" (PDict []))])
            | _ => (Raise (AttributeError_get g), g)
            end
        end
      else (Raise e, g)
  | Pending => (Pending, g)
  end.
Proof.
  unfold loop_iteration, bind, try_except_Exception.
  rewrite snapshot_call.
  destruct (delivered p) as [stats | e |].
  - unfold call. destruct (generate_insights p stats) as [tips | e |];
      [reflexivity | | reflexivity].
    destruct (isinstance_Exception e) eqn:He; cbn; rewrite ?He; reflexivity.
  - destruct (isinstance_Exception e) eqn:He; [| reflexivity].
    unfold call, repr. destruct (exn_repr_raises e); [reflexivity |].
    destruct g; reflexivity.
  - reflexivity.
Qed.

End LoopBody.

Section LoopFacts.

Variable p : pipeline.

(** From a stored dict, a pass either completes and stores a dict whose
    status is "ok" or "error", or raises and leaves the stored dict, or
    never finishes and leaves it. *)
Lemma loop_iteration_dict (d : list (string * pyval)) :
  (exists d', loop_iteration p (PDict d) = (Return tt, PDict d')
              /\ (dict_lookup d' "status" = Some (PStr "ok")
                  \/ dict_lookup d' "status" = Some (PStr "error")))
  \/ (exists e, loop_iteration p (PDict d) = (Raise e, PDict d))
  \/ loop_iteration p (PDict d) = (Pending, PDict d).
Proof.
  rewrite loop_iteration_unfold.
  destruct (delivered p) as [stats | e |].
  - destruct (generate_insights p stats) as [tips | e |].
    + left. eexists. split; [reflexivity | left; reflexivity].
    + destruct (isinstance_Exception e) eqn:He.
      * left. eexists. split; [reflexivity | left; reflexivity].
      * right. left. exists e. auto.
    + right. right. reflexivity.
  - destruct (isinstance_Exception e) eqn:He.
    + destruct (exn_repr_raises e) as [x |].
      * right. left. exists x. reflexivity.
      * left. eexists. split; [reflexivity | right; reflexivity].
    + right. left. exists e. auto.
  - right. right. reflexivity.
Qed.

Lemma steps_AtSleep (n : nat) (g : pyval) : steps n p (AtSleep, g) = (AtSleep, g).
Proof. induction n as [| n IH]; [reflexivity | exact IH]. Qed.

Lemma steps_Dead (n : nat) (e : exn) (g : pyval) :
  steps n p (Dead e, g) = (Dead e, g).
Proof. induction n as [| n IH]; [reflexivity | exact IH]. Qed.

Lemma steps_Stuck (n : nat) (g : pyval) : steps n p (Stuck, g) = (Stuck, g).
Proof. induction n as [| n IH]; [reflexivity | exact IH]. Qed.

Lemma step_AtSnapshot (g : pyval) :
  step p (AtSnapshot, g) =
  match delivered p with
  | Return stats => (AtInsights stats, g)
  | Raise e =>
      if isinstance_Exception e then (AtHandlerStats e, g) else (Dead e, g)
  | Pending => (Stuck, g)
  end.
Proof. reflexivity. Qed.

Ltac run_steps :=
  cbn [steps step method_get snd];
  rewrite ?steps_AtSleep, ?steps_Dead, ?steps_Stuck;
  cbn [snd]; auto.

(** The statement-by-statement body and [loop_iteration] agree: four steps
    end the pass, asleep with the new value stored, dead with the old, or
    stuck with the old. *)
Lemma steps_loop_iteration (g : pyval) :
  steps 4 p (AtSnapshot, g) =
  match loop_iteration p g with
  | (Return _, g') => (AtSleep, g')
  | (Raise e, g') => (Dead e, g')
  | (Pending, g') => (Stuck, g')
  end.
Proof.
  rewrite loop_iteration_unfold.
  change (steps 4 p (AtSnapshot, g)) with (steps 3 p (step p (AtSnapshot, g))).
  rewrite step_AtSnapshot.
  destruct (delivered p) as [stats | e |]; [| | reflexivity].
  - cbn [steps step].
    destruct (generate_insights p stats) as [tips | e |];
      [reflexivity | destruct (isinstance_Exception e); reflexivity | reflexivity].
  - destruct (isinstance_Exception e); [| reflexivity].
    cbn [steps step]. unfold repr.
    destruct (exn_repr_raises e); [reflexivity |].
    destruct g; reflexivity.
Qed.

(** The global changes at most once in a pass, by the assignment that ends
    it: at every point it holds the value of before or the value of after. *)
Lemma steps_global (n : nat) (g : pyval) :
  snd (steps n p (AtSnapshot, g)) = g
  \/ snd (steps n p (AtSnapshot, g)) = snd (loop_iteration p g).
Proof.
  destruct n as [| n]; [left; reflexivity |].
  cbn [steps]. rewrite step_AtSnapshot, loop_iteration_unfold.
  destruct (delivered p) as [stats | e |]; [| | run_steps].
  - destruct n as [| n]; [left; reflexivity |].
    cbn [steps step].
    destruct (generate_insights p stats) as [tips | e |];
      [| destruct (isinstance_Exception e) |];
      try (destruct n as [| n]); run_steps.
  - destruct (isinstance_Exception e); [| run_steps].
    destruct n as [| n]; [left; reflexivity |].
    cbn [steps step]. unfold repr.
    destruct (exn_repr_raises e); [run_steps |].
    destruct g; destruct n as [| [| n]]; run_steps.
Qed.

End LoopFacts.

(** ** Runs of the loop *)

Lemma processing_loop_cons (p : pipeline) (rest : list pipeline) (g : pyval) :
  _processing_loop (p :: rest) g =
  match loop_iteration p g with
  | (Return _, g') => _processing_loop rest g'
  | (Raise e, g') => (Raise e, g')
  | (Pending, g') => (Pending, g')
  end.
Proof. reflexivity. Qed.

(** The stored value stays a dict; it is the dict of the start as long as
    no pass has completed, and carries "ok" or "error" afterwards. *)
Lemma processing_loop_dict (cycles : list pipeline) :
  forall d, exists d',
    snd (_processing_loop cycles (PDict d)) = PDict d'
    /\ (completed cycles (PDict d) = O -> d' = d)
    /\ (completed cycles (PDict d) <> O ->
        dict_lookup d' "status" = Some (PStr "ok")
        \/ dict_lookup d' "status" = Some (PStr "error")).
Proof.
  induction cycles as [| p rest IH]; intro d.
  - exists d. cbn. repeat split; auto. intro H; now elim H.
  - rewrite processing_loop_cons. cbn [completed].
    destruct (loop_iteration_dict p d) as [(d1 & E & Hs) | [(e & E) | E]];
      rewrite E.
    + destruct (IH d1) as (d' & E' & Hzero & Hpos).
      exists d'. split; [exact E' |]. split; [discriminate |].
      intros _. destruct (completed rest (PDict d1)) eqn:Hc.
      * now rewrite (Hzero eq_refl).
      * apply Hpos. discriminate.
    + exists d. cbn. repeat split; auto. intro H; now elim H.
    + exists d. cbn. repeat split; auto. intro H; now elim H.
Qed.

(** A pass with collaborators that finish and raise nothing but ordinary
    exceptions completes, from any stored dict. *)
Lemma loop_iteration_completes (p : pipeline) (d : list (string * pyval)) :
  raises_only_Exception p ->
  exists d', loop_iteration p (PDict d) = (Return tt, PDict d').
Proof.
  intros (Hf & Hs & Hif & Hi). rewrite loop_iteration_unfold.
  destruct (process_stream_once p) as [stats | e |] eqn:Es.
  - rewrite (delivered_of_Return p stats Es).
    destruct (generate_insights p stats) as [tips | e |] eqn:Ei.
    + eexists. reflexivity.
    + rewrite (Hi _ _ Ei). eexists. reflexivity.
    + elim (Hif stats Ei).
  - destruct (delivered_ordinary p e Es (Hs e eq_refl)) as [-> ->].
    rewrite (ordinary_repr e (Hs e eq_refl)). eexists. reflexivity.
  - now elim Hf.
Qed.

Lemma processing_loop_returns (cycles : list pipeline) :
  Forall raises_only_Exception cycles ->
  forall d, fst (_processing_loop cycles (PDict d)) = Return tt.
Proof.
  induction 1 as [| p rest Hp _ IH]; intro d; [reflexivity |].
  rewrite processing_loop_cons.
  destruct (loop_iteration_completes p d Hp) as [d' ->]. apply IH.
Qed.

Lemma dict_get_lookup (d : list (string * pyval)) (key : string) (v default : pyval) :
  dict_lookup d key = Some v -> dict_get d key default = v.
Proof.
  induction d as [| [k x] d IH]; cbn; [discriminate |].
  destruct (String.eqb k key); [congruence | exact IH].
Qed.

Lemma observable_cases (p : pipeline) (g v : pyval) :
  observable p g v -> v = g \/ v = snd (loop_iteration p g).
Proof. intros [n <-]. apply steps_global. Qed.

Lemma stored_after_dict (cycles : list pipeline) :
  exists d, stored_after cycles = PDict d
            /\ (completed cycles LATEST_STATS = O -> PDict d = LATEST_STATS)
            /\ (completed cycles LATEST_STATS <> O ->
                dict_lookup d "status" = Some (PStr "ok")
                \/ dict_lookup d "status" = Some (PStr "error")).
Proof.
  unfold stored_after, LATEST_STATS.
  destruct (processing_loop_dict cycles
              [("status", PStr "starting"); ("stats", PDict []); ("tips", PDict [])])
    as (d & E & Hz & Hp).
  exists d. split; [exact E |]. split; [| exact Hp].
  intro H. now rewrite (Hz H).
Qed.

(** What a reader finds at any point of any cycle is a dict with a known
    status. *)
Lemma observable_dict (cycles : list pipeline) (p : pipeline) (v : pyval) :
  observable p (stored_after cycles) v ->
  (exists d, v = PDict d) /\ status_known v.
Proof.
  intro Hobs.
  assert (Hall : forall cs, (exists d, stored_after cs = PDict d)
                            /\ status_known (stored_after cs)).
  { intro cs. destruct (stored_after_dict cs) as (d & E & Hz & Hp).
    split; [eauto |].
    destruct (completed cs LATEST_STATS) eqn:Hc.
    - rewrite E, (Hz eq_refl). left. reflexivity.
    - rewrite E. unfold status_known. cbn [field].
      destruct Hp as [H | H]; [discriminate | |]; rewrite H; auto. }
  destruct (observable_cases _ _ _ Hobs) as [-> | ->]; [apply Hall |].
  destruct (Hall cycles) as [[d E] Hk]. rewrite E in *.
  destruct (loop_iteration_dict p d) as [(d1 & E1 & Hs) | [(e & E1) | E1]];
    rewrite E1; cbn [snd].
  - split; [eauto |]. unfold status_known. cbn [field].
    destruct Hs as [H | H]; rewrite H; auto.
  - split; [eauto | exact Hk].
  - split; [eauto | exact Hk].
Qed.

(** ** The refresh loop *)

(** C1, as the code has it: when both collaborators finish and whatever
    they raise is an instance of [Exception] (for the snapshot function:
    one that is neither a [StopIteration] nor a
    [concurrent.futures.CancelledError]), a pass through the loop body over
    a stored dict completes without raising, a failure of the snapshot
    function ends in a stored status "error", and the loop started at
    start-up never raises, whatever the number of cycles. *)
Theorem loop_contains_Exception :
  (forall p d, raises_only_Exception p ->
     exists d', loop_iteration p (PDict d) = (Return tt, PDict d')
                /\ (forall e, process_stream_once p = Raise e ->
                    dict_lookup d' "status" = Some (PStr "error")))
  /\ (forall cycles, Forall raises_only_Exception cycles ->
        fst (_processing_loop cycles LATEST_STATS) = Return tt).
Proof.
  split.
  - intros p d Hp. pose proof Hp as (Hf & Hs & Hif & Hi).
    rewrite loop_iteration_unfold.
    destruct (process_stream_once p) as [stats | e |] eqn:Es.
    + rewrite (delivered_of_Return p stats Es).
      destruct (generate_insights p stats) as [tips | e |] eqn:Ei.
      * eexists. split; [reflexivity | discriminate].
      * rewrite (Hi _ _ Ei). eexists. split; [reflexivity | discriminate].
      * elim (Hif stats Ei).
    + destruct (delivered_ordinary p e Es (Hs e eq_refl)) as [-> ->].
      rewrite (ordinary_repr e (Hs e eq_refl)).
      eexists. split; [reflexivity | reflexivity].
    + now elim Hf.
  - intros cycles H. apply processing_loop_returns, H.
Qed.

Lemma offline_raises_only_Exception : raises_only_Exception offline_pipeline.
Proof.
  split; [discriminate |]. split; [| split].
  - intros e H. injection H as <-. reflexivity.
  - intros stats H. discriminate H.
  - intros stats e H. discriminate H.
Defined.

Lemma loop_contains_Exception_witness :
  (exists d', loop_iteration offline_pipeline (PDict []) = (Return tt, PDict d')
              /\ (forall e, process_stream_once offline_pipeline = Raise e ->
                  dict_lookup d' "status" = Some (PStr "error")))
  /\ fst (_processing_loop [offline_pipeline; offline_pipeline] LATEST_STATS)
     = Return tt.
Proof.
  split.
  - apply (proj1 loop_contains_Exception offline_pipeline []).
    exact offline_raises_only_Exception.
  - apply (proj2 loop_contains_Exception).
    apply Forall_cons; [exact offline_raises_only_Exception |].
    apply Forall_cons; [exact offline_raises_only_Exception | apply Forall_nil].
Defined.

(** C1 as stated fails: a snapshot function that raises [SystemExit], which
    is not an [Exception], takes the exception through both [except]
    clauses and out of the loop; nothing is stored. *)
Lemma system_exit_leaves_the_loop :
  loop_iteration exiting_pipeline LATEST_STATS = (Raise system_exit, LATEST_STATS)
  /\ fst (_processing_loop [exiting_pipeline] LATEST_STATS) = Raise system_exit.
Proof. split; reflexivity. Qed.

Lemma shared_get_refers (g : Shared.record) (key : string) (v : pyval)
      (a : Shared.address) :
  Shared.get g key (Shared.Lit v) = Shared.Obj a -> Shared.refers g a.
Proof.
  induction g as [| [k x] g IH]; cbn [Shared.get]; [discriminate |].
  destruct (String.eqb k key).
  - intros ->. exists k. left. reflexivity.
  - intro H. destruct (IH H) as [k' Hin]. exists k'. right. exact Hin.
Qed.

(** The contents of a value of the record taken by [get] survive a call
    that leaves the objects of the record as they are. *)
Lemma shared_deref_get (g : Shared.record) (key : string) (v : pyval)
      (h h' : Shared.heap) :
  (forall a, Shared.refers g a -> h' a = h a) ->
  Shared.deref h' (Shared.get g key (Shared.Lit v))
  = Shared.deref h (Shared.get g key (Shared.Lit v)).
Proof.
  intro H. destruct (Shared.get g key (Shared.Lit v)) as [w | a] eqn:E;
    [reflexivity |].
  cbn [Shared.deref]. apply H. apply (shared_get_refers g key v a E).
Qed.

(** C2, as the code has it: when the snapshot function raises an instance
    of [Exception] (one that is neither a [StopIteration] nor a
    [concurrent.futures.CancelledError]), the pass stores status "error",
    the [repr] of the exception under "error", and under "stats" and "tips"
    the very objects the previous record held (an empty dict for a key it
    lacked).  Their contents are those of before when the snapshot function
    has left these objects as they were. *)
Theorem snapshot_failure_keeps_payload :
  forall (p : Shared.pipeline) (h : Shared.heap) (g : Shared.record) (e : exn),
    fst (Shared.process_stream_once p h) = Raise e ->
    ordinary e = true ->
    Shared.pass p h g
    = (Shared.AtSleep, snd (Shared.process_stream_once p h),
       [("status", Shared.Lit (PStr "error"));
        ("error", Shared.Lit (PStr (exn_repr e)));
        ("stats", Shared.get g "stats" (Shared.Lit (PDict [])));
        ("tips", Shared.get g "tips" (Shared.Lit (PDict [])))])
    /\ (Shared.preserves p g ->
        Shared.deref (snd (Shared.process_stream_once p h))
          (Shared.get g "stats" (Shared.Lit (PDict [])))
        = Shared.deref h (Shared.get g "stats" (Shared.Lit (PDict [])))
        /\ Shared.deref (snd (Shared.process_stream_once p h))
             (Shared.get g "tips" (Shared.Lit (PDict [])))
           = Shared.deref h (Shared.get g "tips" (Shared.Lit (PDict [])))).
Proof.
  intros p h g e Es He. split.
  - unfold Shared.pass. cbn [Shared.steps]. unfold Shared.step at 4.
    destruct (Shared.process_stream_once p h) as [r h'] eqn:Ep.
    cbn [fst snd] in *. subst r. cbn [Shared.handed].
    destruct (ordinary_delivery _ Shared.Lit (Raise e) e
                (Shared.iscoroutinefunction p) eq_refl He) as [-> ->].
    cbn [Shared.step]. rewrite (proj2 (proj2 (proj2 (ordinary_inv e He)))).
    reflexivity.
  - intros [Hs _].
    split; apply shared_deref_get; intros a Ha; apply Hs, Ha.
Qed.

Lemma snapshot_failure_keeps_payload_witness :
  Shared.pass half_done_pipeline
    (Shared.update no_objects O (PDict [("rally_count", PInt 5)]))
    [("status", Shared.Lit (PStr "ok")); ("stats", Shared.Obj O);
     ("tips", Shared.Lit (PDict []))]
  = (Shared.AtSleep,
     Shared.update (Shared.update no_objects O (PDict [("rally_count", PInt 5)]))
       O (PDict []),
     [("status", Shared.Lit (PStr "error"));
      ("error", Shared.Lit (PStr "RuntimeError('camera offline')"));
      ("stats", Shared.Obj O); ("tips", Shared.Lit (PDict []))]).
Proof.
  apply (proj1 (snapshot_failure_keeps_payload half_done_pipeline
                  (Shared.update no_objects O (PDict [("rally_count", PInt 5)]))
                  [("status", Shared.Lit (PStr "ok")); ("stats", Shared.Obj O);
                   ("tips", Shared.Lit (PDict []))]
                  camera_offline eq_refl eq_refl)).
Defined.

(** C2 as stated fails: the snapshot function raises [SystemExit] in the
    first cycle, and the stored status is still "starting". *)
Lemma system_exit_is_not_recorded :
  process_stream_once exiting_pipeline = Raise system_exit
  /\ field (stored_after [exiting_pipeline]) "status" = Some (PStr "starting")
  /\ field (stored_after [exiting_pipeline]) "error" = None.
Proof. repeat split. Qed.

(** C3: when the snapshot function returns [s] and the insights generator
    returns [t] on [s], the pass stores exactly status "ok", stats [s] and
    tips [t], whatever was stored before; with the snapshot of five rallies
    and the tip "good rally", GET /api/stats after one cycle answers 200
    with the JSON text of the example. *)
Theorem success_stores_snapshot_and_tips :
  (forall p g s t,
     process_stream_once p = Return s ->
     generate_insights p s = Return t ->
     loop_iteration p g
     = (Return tt, PDict [("status", PStr "ok"); ("stats", s); ("tips", t)]))
  /\ GET_api_stats (stored_after [rally_pipeline])
     = {| status := 200; body := list_byte_of_string rally_json |}.
Proof.
  split; [| reflexivity].
  intros p g s t Es Et.
  rewrite loop_iteration_unfold, (delivered_of_Return p s Es), Et.
  reflexivity.
Qed.

Lemma success_stores_snapshot_and_tips_witness :
  loop_iteration rally_pipeline PNone
  = (Return tt,
     PDict [("status", PStr "ok");
            ("stats", PDict [("rally_count", PInt 5)]);
            ("tips", PDict [("tips", PList [PStr "good rally"])])]).
Proof.
  exact (proj1 success_stores_snapshot_and_tips rally_pipeline PNone
           _ _ eq_refl eq_refl).
Defined.

(** C4, as the code has it: when the snapshot function returns [s] and the
    insights generator raises an instance of [Exception] on [s], the pass
    still stores status "ok" and stats [s], with the marker
    [{"error": "insights generation failed"}] as tips, whatever was stored
    before. *)
Theorem insights_failure_stores_marker :
  forall p g s e,
    process_stream_once p = Return s ->
    generate_insights p s = Raise e ->
    isinstance_Exception e = true ->
    loop_iteration p g
    = (Return tt,
       PDict [("status", PStr "ok"); ("stats", s);
              ("tips", PDict [("error", PStr "insights generation failed")])]).
Proof.
  intros p g s e Es Ei He.
  rewrite loop_iteration_unfold, (delivered_of_Return p s Es), Ei, He.
  reflexivity.
Qed.

Lemma insights_failure_stores_marker_witness :
  field (snd (loop_iteration no_insights_pipeline (stored_after [rally_pipeline])))
    "tips"
  = Some (PDict [("error", PStr "insights generation failed")]).
Proof.
  rewrite (insights_failure_stores_marker no_insights_pipeline
             (stored_after [rally_pipeline]) _ key_error eq_refl eq_refl eq_refl).
  reflexivity.
Defined.

(** C4 as stated fails: an insights generator that raises [SystemExit]
    ends the pass with that exception, and the snapshot is not stored. *)
Lemma insights_system_exit_blocks_update :
  process_stream_once exiting_insights_pipeline
  = process_stream_once stub_pipeline
  /\ loop_iteration exiting_insights_pipeline LATEST_STATS
     = (Raise system_exit, LATEST_STATS).
Proof. split; reflexivity. Qed.

(** C5: after any cycles, each succeeding or failing in any way, and at any
    point of a further cycle, the stored status is "starting", "ok" or
    "error"; it is "starting" exactly as long as no pass through the loop
    body has completed. *)
Theorem status_is_known :
  forall cycles,
    status_known (stored_after cycles)
    /\ (field (stored_after cycles) "status" = Some (PStr "starting")
        <-> completed cycles LATEST_STATS = O)
    /\ (forall p v, observable p (stored_after cycles) v -> status_known v).
Proof.
  intro cycles.
  split; [| split].
  - apply (observable_dict cycles stub_pipeline). now exists O.
  - destruct (stored_after_dict cycles) as (d & E & Hz & Hp). rewrite E.
    split.
    + intro Hs. destruct (completed cycles LATEST_STATS) eqn:Hc; [reflexivity |].
      cbn [field] in Hs.
      destruct Hp as [H | H]; [discriminate | |]; rewrite H in Hs; discriminate.
    + intro Hc. rewrite (Hz Hc). reflexivity.
  - intros p v H. apply (observable_dict cycles p v H).
Qed.

Lemma status_is_known_witness :
  completed [exiting_pipeline; rally_pipeline] LATEST_STATS = O
  /\ status_known (stored_after [offline_pipeline]).
Proof.
  split.
  - apply (proj1 (proj2 (status_is_known [exiting_pipeline; rally_pipeline]))).
    reflexivity.
  - apply (proj2 (proj2 (status_is_known []))) with (p := offline_pipeline).
    exists 4%nat. reflexivity.
Defined.

(** ** The stats route *)

Lemma api_stats_unfold (g : pyval) :
  api_stats g =
  if is_None g
  then (Raise (HTTPException 503 "Stats not available yet"), g)
  else (Return g, g).
Proof. unfold api_stats, bind, read_global. destruct g; reflexivity. Qed.

(** C6, as the code has it: the handler of /api/stats raises the 503
    exception exactly when the global is [None]; on any other value it
    returns the stored value, as it is, and the answer is then 200 with the
    JSON text of that value when it can be rendered, and 500 when it cannot
    (it holds a float that is not finite); the global is never [None] after
    start-up, at any point of any cycle, so the 503 branch is never
    taken. *)
Theorem stats_unavailable_iff_None :
  (forall g, fst (api_stats g) = Raise (HTTPException 503 "Stats not available yet")
             <-> g = PNone)
  /\ (forall g, status (GET_api_stats g) = 503 <-> g = PNone)
  /\ (forall g, g <> PNone ->
        api_stats g = (Return g, g)
        /\ GET_api_stats g
           = match json_dumps (jsonable_encoder g) with
             | Some text => {| status := 200; body := list_byte_of_string text |}
             | None => internal_server_error
             end)
  /\ (forall cycles p v,
        observable p (stored_after cycles) v ->
        v <> PNone /\ api_stats v = (Return v, v)).
Proof.
  assert (Hs : forall g, g <> PNone -> status (GET_api_stats g) <> 503).
  { intros g Hg. unfold GET_api_stats, JSONResponse. rewrite api_stats_unfold.
    destruct g; try (now elim Hg); cbn [is_None fst respond];
      destruct (json_dumps _); discriminate. }
  split; [| split; [| split]].
  - intro g. rewrite api_stats_unfold. destruct g; cbn; split; congruence.
  - intro g. split.
    + intro H. destruct g; try reflexivity; exfalso;
        refine (Hs _ _ H); discriminate.
    + intros ->. reflexivity.
  - intros g Hg. unfold GET_api_stats, JSONResponse. rewrite api_stats_unfold.
    destruct g; try (now elim Hg); cbn [is_None fst respond];
      (split; [reflexivity |]); destruct (json_dumps _); reflexivity.
  - intros cycles p v H.
    destruct (observable_dict _ _ _ H) as [[d ->] _].
    split; [discriminate | reflexivity].
Qed.

Lemma stats_unavailable_iff_None_witness :
  api_stats LATEST_STATS = (Return LATEST_STATS, LATEST_STATS)
  /\ api_stats (stored_after [offline_pipeline])
     = (Return (stored_after [offline_pipeline]), stored_after [offline_pipeline]).
Proof.
  split.
  - apply (proj1 (proj2 (proj2 stats_unavailable_iff_None)) LATEST_STATS).
    discriminate.
  - apply (proj2 (proj2 (proj2 stats_unavailable_iff_None))
             [offline_pipeline] stub_pipeline).
    exists O. reflexivity.
Defined.

(** C6 as stated fails: a snapshot that holds NaN is stored, the handler
    returns the record, and the answer is 500, not 200: [JSONResponse]
    renders with [allow_nan=False]. *)
Lemma nan_is_answered_500 :
  stored_after [nan_pipeline] <> PNone
  /\ fst (api_stats (stored_after [nan_pipeline]))
     = Return (stored_after [nan_pipeline])
  /\ GET_api_stats (stored_after [nan_pipeline]) = internal_server_error
  /\ status (GET_api_stats (stored_after [nan_pipeline])) = 500.
Proof. repeat split. discriminate. Qed.

(** ** Readers during a cycle *)

Lemma shared_steps_AtSleep (p : Shared.pipeline) (n : nat) h g :
  Shared.steps n p (Shared.AtSleep, h, g) = (Shared.AtSleep, h, g).
Proof. induction n as [| n IH]; [reflexivity | exact IH]. Qed.

Lemma shared_steps_Dead (p : Shared.pipeline) (n : nat) e h g :
  Shared.steps n p (Shared.Dead e, h, g) = (Shared.Dead e, h, g).
Proof. induction n as [| n IH]; [reflexivity | exact IH]. Qed.

Lemma shared_steps_Stuck (p : Shared.pipeline) (n : nat) h g :
  Shared.steps n p (Shared.Stuck, h, g) = (Shared.Stuck, h, g).
Proof. induction n as [| n IH]; [reflexivity | exact IH]. Qed.

(** A reader finds the same contents behind a record when the objects it
    refers to are as they were. *)
Lemma shared_view_preserved (g : Shared.record) (h h' : Shared.heap) :
  (forall a, Shared.refers g a -> h' a = h a) ->
  Shared.view h' g = Shared.view h g.
Proof.
  intro H. unfold Shared.view. f_equal. apply map_ext_in.
  intros [k x] Hin. cbn [fst snd]. f_equal.
  destruct x as [v | a]; [reflexivity |].
  cbn [Shared.deref]. apply H. exists k. exact Hin.
Qed.

Section SharedPass.

Variable p : Shared.pipeline.

Lemma shared_step_AtSnapshot (h : Shared.heap) (g : Shared.record) :
  Shared.step p (Shared.AtSnapshot, h, g) =
  match Shared.delivered p h with
  | Return stats =>
      (Shared.AtInsights stats, snd (Shared.process_stream_once p h), g)
  | Raise e =>
      if isinstance_Exception e
      then (Shared.AtHandlerStats e, snd (Shared.process_stream_once p h), g)
      else (Shared.Dead e, snd (Shared.process_stream_once p h), g)
  | Pending => (Shared.Stuck, snd (Shared.process_stream_once p h), g)
  end.
Proof.
  unfold Shared.step, Shared.delivered.
  destruct (Shared.process_stream_once p h) as [r h1]. reflexivity.
Qed.

Lemma shared_step_AtInsights (a : Shared.slot) (h : Shared.heap)
      (g : Shared.record) :
  Shared.step p (Shared.AtInsights a, h, g) =
  match fst (Shared.generate_insights p a h) with
  | Return tips =>
      (Shared.AtStoreOk a (Shared.Obj tips),
       snd (Shared.generate_insights p a h), g)
  | Raise e =>
      if isinstance_Exception e
      then (Shared.AtStoreOk a (Shared.Lit insights_failed),
            snd (Shared.generate_insights p a h), g)
      else (Shared.Dead e, snd (Shared.generate_insights p a h), g)
  | Pending => (Shared.Stuck, snd (Shared.generate_insights p a h), g)
  end.
Proof.
  unfold Shared.step.
  destruct (Shared.generate_insights p a h) as [r h2]. reflexivity.
Qed.

(** A pass ends asleep, dead or stuck, where no step changes anything. *)
Lemma shared_pass_final (h : Shared.heap) (g : Shared.record) :
  Shared.step p (Shared.pass p h g) = Shared.pass p h g.
Proof.
  unfold Shared.pass. cbn [Shared.steps]. rewrite shared_step_AtSnapshot.
  destruct (Shared.delivered p h) as [a | e |]; [| | reflexivity].
  - rewrite shared_step_AtInsights.
    destruct (fst (Shared.generate_insights p a (snd (Shared.process_stream_once p h))))
      as [t | e |]; [reflexivity | | reflexivity].
    destruct (isinstance_Exception e); reflexivity.
  - destruct (isinstance_Exception e); [| reflexivity].
    cbn [Shared.step]. destruct (repr e); reflexivity.
Qed.

Lemma shared_steps_final (n : nat) (c : Shared.point * Shared.heap * Shared.record) :
  Shared.step p c = c -> Shared.steps n p c = c.
Proof.
  intro H. induction n as [| n IH]; [reflexivity |].
  cbn [Shared.steps]. rewrite H. exact IH.
Qed.

Variable h : Shared.heap.
Variable g : Shared.record.

Lemma early_or_final_step (c : Shared.point * Shared.heap * Shared.record) :
  Shared.early p h g c -> Shared.early p h g (Shared.step p c) \/ Shared.step p (Shared.step p c) = Shared.step p c.
Proof.
  destruct c as [[pt hc] gc]. intros [Hg Hh]. cbn [fst snd] in Hg, Hh. subst gc.
  destruct pt as [| a | a t | e | text x | text x y | | e |].
  - left. rewrite shared_step_AtSnapshot.
    assert (Hk : Shared.preserves p g ->
                 forall a, Shared.refers g a ->
                           snd (Shared.process_stream_once p hc) a = h a).
    { intros Hp a Ha. rewrite (proj1 Hp hc a Ha). apply Hh; assumption. }
    destruct (Shared.delivered p hc) as [a | e |];
      [| destruct (isinstance_Exception e) |]; split; auto.
  - left. rewrite shared_step_AtInsights.
    assert (Hk : Shared.preserves p g ->
                 forall b, Shared.refers g b ->
                           snd (Shared.generate_insights p a hc) b = h b).
    { intros Hp b Hb. rewrite (proj2 Hp a hc b Hb). apply Hh; assumption. }
    destruct (fst (Shared.generate_insights p a hc)) as [t | e |];
      [| destruct (isinstance_Exception e) |]; split; auto.
  - right. reflexivity.
  - left. cbn [Shared.step]. destruct (repr e); split; auto.
  - left. split; auto.
  - right. reflexivity.
  - right. reflexivity.
  - right. reflexivity.
  - right. reflexivity.
Qed.

(** Every state of the pass is an early one or the one the pass ends in. *)
Lemma early_or_pass (n : nat) :
  Shared.early p h g (Shared.steps n p (Shared.AtSnapshot, h, g))
  \/ Shared.steps n p (Shared.AtSnapshot, h, g) = Shared.pass p h g.
Proof.
  assert (Hgen : forall m c,
            Shared.early p h g c \/ Shared.step p c = c ->
            Shared.early p h g (Shared.steps m p c) \/ Shared.step p (Shared.steps m p c)
                                          = Shared.steps m p c).
  { induction m as [| m IH]; intros c Hc; [exact Hc |].
    cbn [Shared.steps]. apply IH.
    destruct Hc as [Hc | Hc]; [apply early_or_final_step, Hc |].
    right. rewrite Hc. exact Hc. }
  destruct (Hgen n (Shared.AtSnapshot, h, g)) as [H | H].
  - left. split; [reflexivity | auto].
  - left. exact H.
  - right.
    set (c := Shared.steps n p (Shared.AtSnapshot, h, g)) in *.
    assert (Hadd : forall a b c0,
              Shared.steps (a + b) p c0 = Shared.steps b p (Shared.steps a p c0)).
    { induction a as [| a IHa]; intros b c0; [reflexivity |].
      cbn [Nat.add Shared.steps]. apply IHa. }
    assert (E1 : Shared.steps (n + 4) p (Shared.AtSnapshot, h, g) = c).
    { rewrite Hadd. apply shared_steps_final, H. }
    assert (E2 : Shared.steps (4 + n) p (Shared.AtSnapshot, h, g)
                 = Shared.pass p h g).
    { rewrite Hadd. apply shared_steps_final, shared_pass_final. }
    rewrite Nat.add_comm in E1. congruence.
Qed.

End SharedPass.

(** C8, as the code has it: the loop body changes the global by one
    assignment of a new dict.  A reader that runs at any point of a cycle
    finds the global bound to the record of before the cycle or to the
    record the cycle stores.  The record holds references to the objects of
    the pipeline: when the collaborators leave the objects of the previous
    record as they are, what the reader finds behind the record is what was
    there before the cycle or what is there after it. *)
Theorem reader_sees_whole_record :
  forall (p : Shared.pipeline) (h : Shared.heap) (g : Shared.record) (n : nat),
    (snd (Shared.steps n p (Shared.AtSnapshot, h, g)) = g
     \/ snd (Shared.steps n p (Shared.AtSnapshot, h, g)) = snd (Shared.pass p h g))
    /\ (Shared.preserves p g ->
        Shared.view (snd (fst (Shared.steps n p (Shared.AtSnapshot, h, g))))
          (snd (Shared.steps n p (Shared.AtSnapshot, h, g)))
        = Shared.view h g
        \/ Shared.view (snd (fst (Shared.steps n p (Shared.AtSnapshot, h, g))))
             (snd (Shared.steps n p (Shared.AtSnapshot, h, g)))
           = Shared.view (snd (fst (Shared.pass p h g))) (snd (Shared.pass p h g))).
Proof.
  intros p h g n.
  destruct (early_or_pass p h g n) as [[Hg Hh] | ->].
  - split; [left; exact Hg |].
    intro Hp. left. rewrite Hg. apply shared_view_preserved, Hh, Hp.
  - split; [right; reflexivity | intros _; right; reflexivity].
Qed.

Lemma fresh_pipeline_preserves :
  Shared.preserves (fresh_pipeline 2)
    (snd (Shared.pass (fresh_pipeline 1) no_objects Shared.LATEST_STATS)).
Proof.
  split.
  - intros h a (k & [H | [H | [H | []]]]); try discriminate.
    + injection H as _ <-. reflexivity.
    + injection H as _ <-. reflexivity.
  - intros stats h a (k & [H | [H | [H | []]]]); try discriminate.
    + injection H as _ <-. reflexivity.
    + injection H as _ <-. reflexivity.
Defined.

Lemma reader_sees_whole_record_witness :
  Shared.view
    (snd (fst (Shared.steps 2 (fresh_pipeline 2)
                 (Shared.AtSnapshot,
                  snd (fst (Shared.pass (fresh_pipeline 1) no_objects
                              Shared.LATEST_STATS)),
                  snd (Shared.pass (fresh_pipeline 1) no_objects
                         Shared.LATEST_STATS)))))
    (snd (Shared.steps 2 (fresh_pipeline 2)
            (Shared.AtSnapshot,
             snd (fst (Shared.pass (fresh_pipeline 1) no_objects
                         Shared.LATEST_STATS)),
             snd (Shared.pass (fresh_pipeline 1) no_objects Shared.LATEST_STATS))))
  = PDict [("status", PStr "ok"); ("stats", PDict [("rally_count", PInt 1)]);
           ("tips", PDict [("cycle", PInt 1)])].
Proof.
  destruct (proj2 (reader_sees_whole_record (fresh_pipeline 2)
                     (snd (fst (Shared.pass (fresh_pipeline 1) no_objects
                                  Shared.LATEST_STATS)))
                     (snd (Shared.pass (fresh_pipeline 1) no_objects
                             Shared.LATEST_STATS))
                     2)
                  fresh_pipeline_preserves) as [H | H].
  - rewrite H. reflexivity.
  - reflexivity.
Defined.

(** C8 as stated fails: a pipeline that keeps one dict and updates it in
    place.  Before cycle 2 a reader finds the rally count and the tips of
    cycle 1, after it those of cycle 2; in between, when the snapshot
    function has run and the record has not been replaced, the reader finds
    the rally count of cycle 2 beside the tips of cycle 1. *)
Lemma in_place_update_mixes_cycles :
  Shared.view
    (snd (fst (Shared.pass (in_place_pipeline 1) no_objects Shared.LATEST_STATS)))
    (snd (Shared.pass (in_place_pipeline 1) no_objects Shared.LATEST_STATS))
  = PDict [("status", PStr "ok"); ("stats", PDict [("rally_count", PInt 1)]);
           ("tips", PDict [("cycle", PInt 1)])]
  /\ Shared.view
       (snd (fst (Shared.steps 1 (in_place_pipeline 2)
                    (Shared.AtSnapshot,
                     snd (fst (Shared.pass (in_place_pipeline 1) no_objects
                                 Shared.LATEST_STATS)),
                     snd (Shared.pass (in_place_pipeline 1) no_objects
                            Shared.LATEST_STATS)))))
       (snd (Shared.steps 1 (in_place_pipeline 2)
               (Shared.AtSnapshot,
                snd (fst (Shared.pass (in_place_pipeline 1) no_objects
                            Shared.LATEST_STATS)),
                snd (Shared.pass (in_place_pipeline 1) no_objects
                       Shared.LATEST_STATS))))
     = PDict [("status", PStr "ok"); ("stats", PDict [("rally_count", PInt 2)]);
              ("tips", PDict [("cycle", PInt 1)])]
  /\ Shared.view
       (snd (fst (Shared.pass (in_place_pipeline 2)
                    (snd (fst (Shared.pass (in_place_pipeline 1) no_objects
                                 Shared.LATEST_STATS)))
                    (snd (Shared.pass (in_place_pipeline 1) no_objects
                            Shared.LATEST_STATS)))))
       (snd (Shared.pass (in_place_pipeline 2)
               (snd (fst (Shared.pass (in_place_pipeline 1) no_objects
                            Shared.LATEST_STATS)))
               (snd (Shared.pass (in_place_pipeline 1) no_objects
                       Shared.LATEST_STATS))))
     = PDict [("status", PStr "ok"); ("stats", PDict [("rally_count", PInt 2)]);
              ("tips", PDict [("cycle", PInt 2)])].
Proof. repeat split. Qed.

(** ** UTF-8: decoding, then encoding, gives the bytes back *)

Lemma code_range (b : byte) : 0 <= code b < 256.
Proof.
  unfold code. pose proof (Byte.to_N_bounded b). lia.
Qed.

Lemma to_byte_code (b : byte) : to_byte (code b) = b.
Proof.
  unfold to_byte, code. rewrite N2Z.id, Byte.of_to_N. reflexivity.
Qed.

Lemma to_byte_eq (z : Z) (b : byte) : z = code b -> to_byte z = b.
Proof. intros ->. apply to_byte_code. Qed.

Ltac byte_arith :=
  apply to_byte_eq; Z.div_mod_to_equations; lia.

(** A successful decoding of a non-empty input reads the encoding of one
    scalar value and decodes the rest. *)
Lemma decode_step (bs : list byte) (t : text) :
  decode bs = Some t ->
  bs = [] /\ t = []
  \/ exists c rest t',
       bs = (encode_code_point c ++ rest)%list /\ t = c :: t'
       /\ decode rest = Some t' /\ scalar c = true.
Proof.
  destruct bs as [| b0 r0]; cbn [decode].
  - intros [= <-]. now left.
  - intro H. right.
    pose proof (code_range b0) as R0.
    destruct (code b0 <? 128) eqn:L0.
    { destruct (decode r0) as [t0 |] eqn:D; [| discriminate].
      injection H as <-. exists (code b0), r0, t0.
      repeat split; auto.
      - symmetry. unfold encode_code_point. rewrite L0. cbn [app]. f_equal. apply to_byte_code.
      - unfold scalar, surrogate. lia. }
    destruct r0 as [| b1 r1]; [discriminate |].
    pose proof (code_range b1) as R1.
    destruct ((192 <=? code b0) && (code b0 <? 224)) eqn:L1.
    { set (c := (code b0 - 192) * 64 + (code b1 - 128)) in *.
      destruct (continuation b1 && (128 <=? c)) eqn:C1; [| discriminate].
      destruct (decode r1) as [t1 |] eqn:D; [| discriminate].
      injection H as <-. exists c, r1, t1.
      unfold continuation in C1.
      repeat split; auto.
      - symmetry. unfold encode_code_point.
        replace (c <? 128) with false by (subst c; lia).
        replace (c <? 2048) with true by (subst c; lia).
        cbn [app]. subst c. f_equal; [byte_arith | f_equal; byte_arith].
      - unfold scalar, surrogate. subst c. lia. }
    destruct r1 as [| b2 r2]; [discriminate |].
    pose proof (code_range b2) as R2.
    destruct ((224 <=? code b0) && (code b0 <? 240)) eqn:L2.
    { set (c := (code b0 - 224) * 4096 + (code b1 - 128) * 64 + (code b2 - 128)) in *.
      destruct (continuation b1 && continuation b2 && (2048 <=? c)
                && negb (surrogate c)) eqn:C2; [| discriminate].
      destruct (decode r2) as [t2 |] eqn:D; [| discriminate].
      injection H as <-. exists c, r2, t2.
      unfold continuation, surrogate in C2.
      repeat split; auto.
      - symmetry. unfold encode_code_point.
        replace (c <? 128) with false by (subst c; lia).
        replace (c <? 2048) with false by (subst c; lia).
        replace (c <? 65536) with true by (subst c; lia).
        cbn [app]. subst c.
        f_equal; [byte_arith | f_equal; [byte_arith | f_equal; byte_arith]].
      - unfold scalar, surrogate. subst c. lia. }
    destruct r2 as [| b3 r3]; [discriminate |].
    pose proof (code_range b3) as R3.
    destruct ((240 <=? code b0) && (code b0 <? 248)) eqn:L3; [| discriminate].
    set (c := (code b0 - 240) * 262144 + (code b1 - 128) * 4096
              + (code b2 - 128) * 64 + (code b3 - 128)) in *.
    destruct (continuation b1 && continuation b2 && continuation b3
              && (65536 <=? c) && (c <=? 1114111)) eqn:C3; [| discriminate].
    destruct (decode r3) as [t3 |] eqn:D; [| discriminate].
    injection H as <-. exists c, r3, t3.
    unfold continuation in C3.
    repeat split; auto.
    + symmetry. unfold encode_code_point.
      replace (c <? 128) with false by (subst c; lia).
      replace (c <? 2048) with false by (subst c; lia).
      replace (c <? 65536) with false by (subst c; lia).
      cbn [app]. subst c.
      f_equal; [byte_arith | f_equal; [byte_arith | f_equal; [byte_arith | f_equal; byte_arith]]].
    + unfold scalar, surrogate. subst c. lia.
Qed.

Lemma encode_code_point_nonempty (c : Z) : encode_code_point c <> [].
Proof.
  unfold encode_code_point.
  destruct (c <? 128); [discriminate |].
  destruct (c <? 2048); [discriminate |].
  destruct (c <? 65536); discriminate.
Qed.

(** Induction along the code points a successful decoding reads. *)
Lemma decode_ind (P : list byte -> text -> Prop) :
  P [] [] ->
  (forall c rest t',
     decode rest = Some t' -> scalar c = true -> P rest t' ->
     P (encode_code_point c ++ rest)%list (c :: t')) ->
  forall bs t, decode bs = Some t -> P bs t.
Proof.
  intros Hnil Hcons bs.
  remember (length bs) as n eqn:Hn.
  revert bs Hn.
  induction n as [n IH] using (well_founded_induction Wf_nat.lt_wf).
  intros bs Hn t Hd.
  destruct (decode_step _ _ Hd) as [[-> ->] | (c & rest & t' & -> & -> & Hr & Hc)];
    [exact Hnil |].
  apply Hcons; auto.
  apply (IH (length rest)); auto.
  subst n. rewrite length_app.
  pose proof (encode_code_point_nonempty c).
  destruct (encode_code_point c); [congruence | cbn; lia].
Qed.

Lemma decode_encode (bs : list byte) (t : text) :
  decode bs = Some t -> encode t = Some bs.
Proof.
  revert bs t. apply decode_ind; [reflexivity |].
  intros c rest t' _ Hc IH. cbn [encode]. rewrite Hc, IH. reflexivity.
Qed.

Lemma encode_scalar (t : text) :
  forallb scalar t = true <-> exists bs, encode t = Some bs.
Proof.
  induction t as [| c t IH]; cbn [forallb encode].
  - split; eauto.
  - destruct (scalar c); cbn [andb].
    + rewrite IH. split; intros [bs E].
      * rewrite E. eexists. reflexivity.
      * destruct (encode t); [eauto | discriminate].
    + split; [discriminate | intros [bs E]; discriminate].
Qed.

Lemma decode_scalar (bs : list byte) (t : text) :
  decode bs = Some t -> forallb scalar t = true.
Proof. intro H. apply encode_scalar. exists bs. apply decode_encode, H. Qed.

Lemma decode_carriage_return (bs : list byte) (t : text) :
  decode bs = Some t -> In 13 t -> In x0d bs.
Proof.
  revert bs t. apply (decode_ind (fun bs t => In 13 t -> In x0d bs)); [intros [] |].
  intros c rest t' _ _ IH [-> | Hin]; apply in_or_app.
  - left. left. reflexivity.
  - right. apply IH, Hin.
Qed.

Lemma universal_newlines_id (t : text) :
  ~ In 13 t -> universal_newlines t = t.
Proof.
  induction t as [| c t IH]; [reflexivity |].
  intro H. cbn [universal_newlines].
  destruct (c =? 13) eqn:E.
  - exfalso. apply H. left. lia.
  - f_equal. apply IH. intro Hin. apply H. right. exact Hin.
Qed.

Lemma universal_newlines_scalar (t : text) :
  forallb scalar t = true -> forallb scalar (universal_newlines t) = true.
Proof.
  remember (length t) as n eqn:Hn. revert t Hn.
  induction n as [n IH] using (well_founded_induction Wf_nat.lt_wf).
  intros t Hn Ht.
  destruct t as [| c r]; [reflexivity |].
  cbn [forallb] in Ht. apply andb_true_iff in Ht as [Hc Hr].
  cbn [universal_newlines].
  destruct (c =? 13).
  - cbn [forallb]. apply andb_true_iff. split; [reflexivity |].
    destruct r as [| c' r']; [reflexivity |].
    destruct (c' =? 10).
    + cbn [forallb] in Hr. apply andb_true_iff in Hr as [_ Hr'].
      apply (IH (length r')); auto. subst n. cbn. lia.
    + apply (IH (length (c' :: r'))); auto. subst n. cbn. lia.
  - cbn [forallb]. rewrite Hc. cbn [andb].
    apply (IH (length r)); auto. subst n. cbn. lia.
Qed.

(** ** The page routes *)

Lemma read_frontend_html_unfold (fs : filesystem) (name : string) :
  _read_frontend_html fs name =
  match fs (path_join "frontend" name) with
  | None => Raise (HTTPException 404 (name ++ " not found"))
  | Some Directory => Raise IsADirectoryError
  | Some (Unreadable _) => Raise PermissionError
  | Some (Failing _ cls text) => Raise (OSError cls text)
  | Some (File content) =>
      match decode content with
      | Some t => Return (universal_newlines t)
      | None => Raise UnicodeDecodeError
      end
  end.
Proof.
  unfold _read_frontend_html, exists_, read_text.
  destruct (fs (path_join "frontend" name)) as [[content | | content | [] cls text] |];
    reflexivity.
Qed.

Lemma page_handler_backing_file (r : page_route) (fs : filesystem) :
  page_handler r fs = _read_frontend_html fs (backing_file r).
Proof. destruct r; reflexivity. Qed.

Lemma page_handler_unfold (r : page_route) (fs : filesystem) :
  page_handler r fs =
  match fs (backing_path r) with
  | None => Raise (HTTPException 404 (backing_file r ++ " not found"))
  | Some Directory => Raise IsADirectoryError
  | Some (Unreadable _) => Raise PermissionError
  | Some (Failing _ cls text) => Raise (OSError cls text)
  | Some (File content) =>
      match decode content with
      | Some t => Return (universal_newlines t)
      | None => Raise UnicodeDecodeError
      end
  end.
Proof. rewrite page_handler_backing_file. apply read_frontend_html_unfold. Qed.

(** A page that decodes is always answered: the translated text can be
    encoded again. *)
Lemma decoded_page_encodes (content : list byte) (t : text) :
  decode content = Some t ->
  exists b, encode (universal_newlines t) = Some b.
Proof.
  intro H. apply encode_scalar, universal_newlines_scalar, (decode_scalar content), H.
Qed.

(** C7, as the code has it: for every page route, when nothing exists at
    the path of the backing file the handler raises HTTPException 404 with
    detail "<file name> not found"; when a file is there that the server
    can read and whose bytes are valid UTF-8 the answer is 200 with the
    UTF-8 encoding of the decoded text after the translation of line
    endings, which is the file byte for byte when the file holds no
    carriage return. *)
Theorem page_served_or_404 :
  forall r fs,
    (fs (backing_path r) = None ->
       page_handler r fs = Raise (HTTPException 404 (backing_file r ++ " not found"))
       /\ status (GET_page r fs) = 404)
    /\ (forall content t,
          fs (backing_path r) = Some (File content) ->
          decode content = Some t ->
          page_handler r fs = Return (universal_newlines t)
          /\ exists b, encode (universal_newlines t) = Some b
                       /\ GET_page r fs = {| status := 200; body := b |})
    /\ (forall content t,
          fs (backing_path r) = Some (File content) ->
          decode content = Some t ->
          ~ In x0d content ->
          GET_page r fs = {| status := 200; body := content |}).
Proof.
  intros r fs. unfold GET_page, HTMLResponse. rewrite page_handler_unfold.
  split; [| split].
  - intros ->. split; reflexivity.
  - intros content t -> Hd. rewrite Hd. split; [reflexivity |].
    destruct (decoded_page_encodes content t Hd) as [b E].
    exists b. split; [exact E |]. cbn [respond]. rewrite E. reflexivity.
  - intros content t -> Hd Hcr. rewrite Hd. cbn [respond].
    rewrite universal_newlines_id.
    + rewrite (decode_encode _ _ Hd). reflexivity.
    + intro Hin. apply Hcr. apply (decode_carriage_return content t Hd Hin).
Qed.

Lemma page_served_or_404_witness :
  status (GET_page TacticalHtml no_files) = 404
  /\ GET_page Root (single_file "frontend/analysis.html" (File utf8_page))
     = {| status := 200; body := utf8_page |}.
Proof.
  split.
  - apply (proj1 (page_served_or_404 TacticalHtml no_files)). reflexivity.
  - apply (proj2 (proj2 (page_served_or_404 Root
                           (single_file "frontend/analysis.html" (File utf8_page))))
             utf8_page [60; 104; 49; 62; 233; 8364; 128512; 10]).
    + reflexivity.
    + reflexivity.
    + cbn. intuition discriminate.
Defined.

(** C7 as stated fails on files that exist.  A page saved as Latin-1 is not
    valid UTF-8: the handler raises [UnicodeDecodeError] and the answer is
    500, not 200.  A page with a CR LF line ending is answered with 200, but
    the body has lost the carriage return. *)
Lemma page_not_served_byte_for_byte :
  (exists_ (single_file "frontend/analysis.html" (File latin1_page))
     (backing_path Root) = Return true
   /\ page_handler Root (single_file "frontend/analysis.html" (File latin1_page))
      = Raise UnicodeDecodeError
   /\ status (GET_page Root (single_file "frontend/analysis.html" (File latin1_page)))
      = 500)
  /\ (crlf_page = [x3c; x70; x3e; x0d; x0a]
      /\ GET_page TechniqueHtml
           (single_file "frontend/technique.html" (File crlf_page))
         = {| status := 200; body := [x3c; x70; x3e; x0a] |}).
Proof. repeat split. Qed.

(** C9: the handlers of "/" and "/analysis.html" are one: both read
    frontend/analysis.html and nothing else.  When nothing is there both
    raise the 404 exception naming analysis.html; when a readable file with
    valid UTF-8 is there both return its text and are answered with the
    same 200 body; and on every file system the two results and the two
    responses are the same. *)
Theorem home_is_analysis_page :
  forall fs,
    home fs = analysis_page fs
    /\ GET_page Root fs = GET_page AnalysisHtml fs
    /\ (fs "frontend/analysis.html" = None ->
        home fs = Raise (HTTPException 404 "analysis.html not found")
        /\ analysis_page fs = Raise (HTTPException 404 "analysis.html not found")
        /\ status (GET_page Root fs) = 404
        /\ status (GET_page AnalysisHtml fs) = 404)
    /\ (forall content t,
          fs "frontend/analysis.html" = Some (File content) ->
          decode content = Some t ->
          home fs = Return (universal_newlines t)
          /\ analysis_page fs = Return (universal_newlines t)
          /\ exists b,
               encode (universal_newlines t) = Some b
               /\ GET_page Root fs = {| status := 200; body := b |}
               /\ GET_page AnalysisHtml fs = {| status := 200; body := b |})
    /\ (forall fs',
          fs' "frontend/analysis.html" = fs "frontend/analysis.html" ->
          home fs' = home fs /\ analysis_page fs' = analysis_page fs).
Proof.
  intro fs. split; [reflexivity |]. split; [reflexivity |].
  unfold GET_page, HTMLResponse, page_handler, home, analysis_page.
  rewrite !read_frontend_html_unfold.
  change (path_join "frontend" "analysis.html") with "frontend/analysis.html".
  split; [| split].
  - intros ->. repeat split.
  - intros content t -> Hd. rewrite Hd.
    split; [reflexivity |]. split; [reflexivity |].
    destruct (decoded_page_encodes content t Hd) as [b E].
    exists b. cbn [respond]. rewrite E. repeat split.
  - intros fs' E. rewrite !read_frontend_html_unfold.
    change (path_join "frontend" "analysis.html") with "frontend/analysis.html".
    rewrite E. split; reflexivity.
Qed.

Lemma home_is_analysis_page_witness :
  home no_files = Raise (HTTPException 404 "analysis.html not found")
  /\ GET_page AnalysisHtml (single_file "frontend/analysis.html" (File crlf_page))
     = {| status := 200; body := [x3c; x70; x3e; x0a] |}.
Proof.
  split.
  - apply (proj1 (proj2 (proj2 (home_is_analysis_page no_files)))). reflexivity.
  - destruct (proj1 (proj2 (proj2 (proj2
                (home_is_analysis_page
                   (single_file "frontend/analysis.html" (File crlf_page))))))
                crlf_page [60; 112; 62; 13; 10] eq_refl)
      as (_ & _ & b & Eb & _ & E).
    + reflexivity.
    + rewrite E. f_equal. injection Eb as <-. reflexivity.
Defined.



(** * Further properties of the refresh loop *)

(** Cycles run one after the other: the cycles of a second list start from
    what the first list stored, and do not start when the loop has died or
    is stuck. *)
Lemma processing_loop_app (a b : list pipeline) (g : pyval) :
  _processing_loop (a ++ b) g =
  match _processing_loop a g with
  | (Return _, g') => _processing_loop b g'
  | (Raise e, g') => (Raise e, g')
  | (Pending, g') => (Pending, g')
  end.
Proof.
  revert g. induction a as [| p a IH]; intro g; [reflexivity |].
  cbn [app]. rewrite !processing_loop_cons.
  destruct (loop_iteration p g) as [[[] | e |] g'];
    [apply IH | reflexivity | reflexivity].
Qed.

(** X1: at every point of every cycle after start-up the global holds one
    of three records: the initial one, an "ok" record with keys status,
    stats, tips, or an "error" record with keys status, error, stats, tips.
    So "stats" and "tips" are always present, and "error" is present
    exactly when the status is "error". *)
Theorem stored_record_shape :
  forall cycles p v,
    observable p (stored_after cycles) v ->
    well_shaped v
    /\ field v "stats" <> None
    /\ field v "tips" <> None
    /\ (field v "error" <> None <-> field v "status" = Some (PStr "error")).
Proof.
  assert (Hshape : forall g, well_shaped g ->
            field g "stats" <> None /\ field g "tips" <> None
            /\ (field g "error" <> None <-> field g "status" = Some (PStr "error"))).
  { intros g [-> | [(s & t & ->) | (r & s & t & ->)]]; cbn;
      repeat split; try discriminate; try congruence; intro H; now elim H. }
  assert (Hiter : forall q g, well_shaped g -> well_shaped (snd (loop_iteration q g))).
  { intros q g Hg. rewrite loop_iteration_unfold.
    destruct (delivered q) as [stats | e |]; [| | exact Hg].
    - destruct (generate_insights q stats) as [tips | e |];
        [| destruct (isinstance_Exception e) |]; cbn [snd]; auto;
        right; left; eauto.
    - destruct (isinstance_Exception e); [| exact Hg].
      destruct (exn_repr_raises e); [exact Hg |].
      destruct Hg as [-> | [(s & t & ->) | (r & s & t & ->)]]; cbn [snd LATEST_STATS];
        right; right; eauto. }
  assert (Hrun : forall cycles g, well_shaped g ->
            well_shaped (snd (_processing_loop cycles g))).
  { induction cycles as [| q rest IH]; intros g Hg; [exact Hg |].
    rewrite processing_loop_cons. specialize (Hiter q g Hg).
    destruct (loop_iteration q g) as [[[] | e |] g']; [apply IH | |]; exact Hiter. }
  intros cycles p v Hobs.
  assert (Hv : well_shaped v).
  { destruct (observable_cases _ _ _ Hobs) as [-> | ->].
    - apply Hrun. left. reflexivity.
    - apply Hiter, Hrun. left. reflexivity. }
  split; [exact Hv | apply Hshape, Hv].
Qed.

Lemma stored_record_shape_witness :
  well_shaped (stored_after [rally_pipeline; offline_pipeline])
  /\ field (stored_after [rally_pipeline; offline_pipeline]) "stats" <> None.
Proof.
  destruct (stored_record_shape [rally_pipeline; offline_pipeline] stub_pipeline
              (stored_after [rally_pipeline; offline_pipeline])) as (H1 & H2 & _).
  - exists O. reflexivity.
  - split; [exact H1 | exact H2].
Defined.

(** A pass in which the snapshot function fails with an ordinary
    exception, over the heap and the record. *)
Lemma shared_pass_failure (p : Shared.pipeline) (h : Shared.heap)
      (g : Shared.record) (e : exn) :
  fst (Shared.process_stream_once p h) = Raise e ->
  ordinary e = true ->
  Shared.pass p h g
  = (Shared.AtSleep, snd (Shared.process_stream_once p h),
     [("status", Shared.Lit (PStr "error"));
      ("error", Shared.Lit (PStr (exn_repr e)));
      ("stats", Shared.get g "stats" (Shared.Lit (PDict [])));
      ("tips", Shared.get g "tips" (Shared.Lit (PDict [])))]).
Proof.
  intros Es He. unfold Shared.pass. cbn [Shared.steps].
  rewrite shared_step_AtSnapshot. unfold Shared.delivered.
  rewrite Es. cbn [Shared.handed].
  destruct (ordinary_delivery _ Shared.Lit (Raise e) e
              (Shared.iscoroutinefunction p) eq_refl He) as [-> ->].
  cbn [Shared.step]. rewrite (proj2 (proj2 (proj2 (ordinary_inv e He)))).
  reflexivity.
Qed.

(** X2: failures add up without losing the payload.  After any number of
    consecutive cycles in which the snapshot function raises an ordinary
    exception, the stored record has status "error", the [repr] of the
    last exception, and under "stats" and "tips" the very objects that were
    stored before the first of these cycles. *)
Theorem consecutive_failures_keep_payload :
  forall failing (p : Shared.pipeline) e h g,
    Forall snapshot_fails failing ->
    (forall h', fst (Shared.process_stream_once p h') = Raise e) ->
    ordinary e = true ->
    exists h',
      Shared.run (failing ++ [p]) h g
      = (Shared.AtSleep, h',
         [("status", Shared.Lit (PStr "error"));
          ("error", Shared.Lit (PStr (exn_repr e)));
          ("stats", Shared.get g "stats" (Shared.Lit (PDict [])));
          ("tips", Shared.get g "tips" (Shared.Lit (PDict [])))]).
Proof.
  intros failing p e h g Hf Es He. revert h g.
  induction Hf as [| q rest Hq _ IH]; intros h g.
  - cbn [app Shared.run]. rewrite (shared_pass_failure p h g e (Es h) He).
    eexists. reflexivity.
  - cbn [app Shared.run]. destruct (Hq h) as (e' & Eq & He').
    rewrite (shared_pass_failure q h g e' Eq He').
    destruct (IH (snd (Shared.process_stream_once q h))
                 [("status", Shared.Lit (PStr "error"));
                  ("error", Shared.Lit (PStr (exn_repr e')));
                  ("stats", Shared.get g "stats" (Shared.Lit (PDict [])));
                  ("tips", Shared.get g "tips" (Shared.Lit (PDict [])))])
      as [h' E].
    exists h'. rewrite E. reflexivity.
Qed.

Lemma half_done_snapshot_fails : snapshot_fails half_done_pipeline.
Proof. intro h. exists camera_offline. split; reflexivity. Defined.

Lemma consecutive_failures_keep_payload_witness :
  exists h',
    Shared.run ([half_done_pipeline; half_done_pipeline] ++ [half_done_pipeline])
      no_objects
      [("status", Shared.Lit (PStr "ok")); ("stats", Shared.Obj 1%nat);
       ("tips", Shared.Obj 2%nat)]
    = (Shared.AtSleep, h',
       [("status", Shared.Lit (PStr "error"));
        ("error", Shared.Lit (PStr "RuntimeError('camera offline')"));
        ("stats", Shared.Obj 1%nat); ("tips", Shared.Obj 2%nat)]).
Proof.
  apply (consecutive_failures_keep_payload
           [half_done_pipeline; half_done_pipeline] half_done_pipeline
           camera_offline no_objects
           [("status", Shared.Lit (PStr "ok")); ("stats", Shared.Obj 1%nat);
            ("tips", Shared.Obj 2%nat)]).
  - apply Forall_cons; [exact half_done_snapshot_fails |].
    apply Forall_cons; [exact half_done_snapshot_fails | apply Forall_nil].
  - intro h'. reflexivity.
  - reflexivity.
Defined.

(** X3: the loop recovers.  When every cycle so far has completed, a cycle
    in which both collaborators return stores exactly the "ok" record of
    that cycle, without an "error" key, whatever the earlier cycles
    stored. *)
Theorem success_after_any_history :
  forall cycles p s t,
    fst (_processing_loop cycles LATEST_STATS) = Return tt ->
    process_stream_once p = Return s ->
    generate_insights p s = Return t ->
    _processing_loop (cycles ++ [p]) LATEST_STATS
    = (Return tt, PDict [("status", PStr "ok"); ("stats", s); ("tips", t)])
    /\ field (stored_after (cycles ++ [p])) "error" = None.
Proof.
  intros cycles p s t Hc Es Et.
  assert (E : _processing_loop (cycles ++ [p]) LATEST_STATS
              = (Return tt, PDict [("status", PStr "ok"); ("stats", s); ("tips", t)])).
  { rewrite processing_loop_app.
    destruct (_processing_loop cycles LATEST_STATS) as [[[] | e |] g'];
      try discriminate.
    rewrite processing_loop_cons, loop_iteration_unfold,
      (delivered_of_Return p s Es), Et.
    reflexivity. }
  split; [exact E |]. unfold stored_after. rewrite E. reflexivity.
Qed.

Lemma success_after_any_history_witness :
  _processing_loop ([offline_pipeline; no_insights_pipeline] ++ [rally_pipeline])
    LATEST_STATS
  = (Return tt,
     PDict [("status", PStr "ok");
            ("stats", PDict [("rally_count", PInt 5)]);
            ("tips", PDict [("tips", PList [PStr "good rally"])])]).
Proof.
  apply (success_after_any_history
           [offline_pipeline; no_insights_pipeline] rally_pipeline).
  - reflexivity.
  - reflexivity.
  - reflexivity.
Defined.

(** X4: an exception that leaves the loop stops the refreshing for good and
    without a trace: the cycles that would follow do not run and the stored
    record stays what it was.  Unless the exception is a [SystemExit] or a
    [KeyboardInterrupt], which end the process, the handler of /api/stats
    goes on returning that record. *)
Theorem dead_loop_serves_stale_record :
  forall cycles more e,
    fst (_processing_loop cycles LATEST_STATS) = Raise e ->
    _processing_loop (cycles ++ more) LATEST_STATS
    = _processing_loop cycles LATEST_STATS
    /\ (ends_process e = false ->
        api_stats (stored_after (cycles ++ more))
        = (Return (stored_after cycles), stored_after cycles)).
Proof.
  intros cycles more e H.
  assert (E : _processing_loop (cycles ++ more) LATEST_STATS
              = _processing_loop cycles LATEST_STATS).
  { rewrite processing_loop_app.
    destruct (_processing_loop cycles LATEST_STATS) as [[[] | e' |] g'];
      [discriminate | reflexivity | reflexivity]. }
  split; [exact E |].
  intros _. unfold stored_after. rewrite E.
  destruct (stored_after_dict cycles) as (d & Ed & _).
  unfold stored_after in Ed. rewrite Ed. reflexivity.
Qed.

Lemma dead_loop_serves_stale_record_witness :
  api_stats (stored_after ([rally_pipeline; cancelled_pipeline]
                             ++ [offline_pipeline; stub_pipeline]))
  = (Return (stored_after [rally_pipeline; cancelled_pipeline]),
     stored_after [rally_pipeline; cancelled_pipeline]).
Proof.
  apply (proj2 (dead_loop_serves_stale_record
                  [rally_pipeline; cancelled_pipeline]
                  [offline_pipeline; stub_pipeline]
                  (PyBaseException "asyncio.CancelledError" "CancelledError()")
                  eq_refl)).
  reflexivity.
Defined.

(** X5: the error handler needs a dict.  If the global held anything else
    ([None], say) when the snapshot function raises an ordinary exception,
    the [.get] of line 85 raises [AttributeError] inside the handler; that
    exception, an [Exception] itself, is not caught and leaves the loop,
    and the global is not assigned. *)
Theorem handler_needs_a_dict :
  forall p g e,
    is_dict g = false ->
    process_stream_once p = Raise e ->
    ordinary e = true ->
    loop_iteration p g = (Raise (AttributeError_get g), g)
    /\ isinstance_Exception (AttributeError_get g) = true.
Proof.
  intros p g e Hg Es He. rewrite loop_iteration_unfold.
  destruct (delivered_ordinary p e Es He) as [-> ->].
  rewrite (ordinary_repr e He).
  destruct g; try discriminate; split; reflexivity.
Qed.

Lemma handler_needs_a_dict_witness :
  fst (loop_iteration offline_pipeline PNone)
  = Raise (PyException "AttributeError"
             ("AttributeError(" ++ dquote
                ++ "'NoneType' object has no attribute 'get'" ++ dquote ++ ")")).
Proof.
  rewrite (proj1 (handler_needs_a_dict offline_pipeline PNone camera_offline
                    eq_refl eq_refl eq_refl)).
  reflexivity.
Defined.

(** X6: an "ok" record is of one piece.  When a pass completes and stores
    status "ok", the stored "stats" is what the snapshot function returned
    in this pass (or, for a plain function that raised an instance of a
    subclass of [StopIteration], the value of that exception, which the
    [await] hands over as a return), and the stored "tips" is what the
    insights generator returned on that very snapshot, or the failure
    marker when it raised an [Exception]. *)
Theorem ok_record_is_of_one_cycle :
  forall p g g',
    loop_iteration p g = (Return tt, g') ->
    field g' "status" = Some (PStr "ok") ->
    exists s,
      (process_stream_once p = Return s
       \/ (iscoroutinefunction p = false
           /\ exists e, process_stream_once p = Raise e
                        /\ isinstance e "StopIteration" = true
                        /\ type_is e "StopIteration" = false
                        /\ exn_value e = s))
      /\ field g' "stats" = Some s
      /\ ((exists t, generate_insights p s = Return t /\ field g' "tips" = Some t)
          \/ (exists e, generate_insights p s = Raise e
                        /\ isinstance_Exception e = true
                        /\ field g' "tips" = Some insights_failed)).
Proof.
  intros p g g'. rewrite loop_iteration_unfold.
  destruct (delivered p) as [s | e |] eqn:Ed; [| | discriminate].
  - apply delivered_Return_inv in Ed.
    destruct (generate_insights p s) as [t | e |] eqn:Ei; [| | discriminate].
    + intros [= <-] _. exists s. split; [exact Ed |]. split; [reflexivity |].
      left. exists t. split; [exact Ei | reflexivity].
    + destruct (isinstance_Exception e) eqn:He; [| discriminate].
      intros [= <-] _. exists s. split; [exact Ed |]. split; [reflexivity |].
      right. exists e. split; [exact Ei |]. split; [exact He | reflexivity].
  - destruct (isinstance_Exception e); [| discriminate].
    destruct (exn_repr_raises e); [discriminate |].
    destruct g; try discriminate.
    intros [= <-] H. discriminate H.
Qed.

Lemma ok_record_is_of_one_cycle_witness :
  exists s,
    (process_stream_once no_insights_pipeline = Return s
     \/ (iscoroutinefunction no_insights_pipeline = false
         /\ exists e, process_stream_once no_insights_pipeline = Raise e
                      /\ isinstance e "StopIteration" = true
                      /\ type_is e "StopIteration" = false
                      /\ exn_value e = s))
    /\ field (stored_after [no_insights_pipeline]) "stats" = Some s
    /\ ((exists t, generate_insights no_insights_pipeline s = Return t
                   /\ field (stored_after [no_insights_pipeline]) "tips" = Some t)
        \/ (exists e, generate_insights no_insights_pipeline s = Raise e
                      /\ isinstance_Exception e = true
                      /\ field (stored_after [no_insights_pipeline]) "tips"
                         = Some insights_failed)).
Proof.
  apply (ok_record_is_of_one_cycle no_insights_pipeline LATEST_STATS).
  - reflexivity.
  - reflexivity.
Defined.

(** The three exceptions that asyncio does not hand to the loop as they
    were raised by a plain function: the await stays pending, ends with a
    value that is stored as the snapshot, or raises a [CancelledError] that
    is no [Exception] and leaves the loop.  And an exception whose [repr]
    fails: what its [__repr__] raises leaves the loop from inside the
    handler. *)
Lemma exceptions_the_handler_does_not_record :
  loop_iteration exhausted_pipeline LATEST_STATS = (Pending, LATEST_STATS)
  /\ field (stored_after [stopping_pipeline]) "stats" = Some (PInt 7)
  /\ fst (loop_iteration cancelled_pipeline LATEST_STATS)
     = Raise (PyBaseException "asyncio.CancelledError" "CancelledError()")
  /\ loop_iteration unprintable_pipeline LATEST_STATS
     = (Raise (PyException "ValueError" "ValueError('no repr')"), LATEST_STATS).
Proof. repeat split. Qed.

(** X7: when the snapshot function raises, the insights generator is not
    called: for two pipelines with a snapshot function of the same kind
    that raises the same exception, no [StopIteration], the outcome of the
    pass is the same whatever their insights generators are. *)
Theorem failed_snapshot_skips_insights :
  forall p q g e,
    iscoroutinefunction p = iscoroutinefunction q ->
    process_stream_once p = Raise e ->
    process_stream_once q = Raise e ->
    isinstance e "StopIteration" = false ->
    loop_iteration p g = loop_iteration q g.
Proof.
  intros p q g e Ek Ep Eq Hs. rewrite !loop_iteration_unfold.
  assert (Ed : delivered p = delivered q).
  { unfold delivered. rewrite Ek, Ep, Eq. reflexivity. }
  rewrite <- Ed.
  destruct (delivered p) as [s | e' |] eqn:E; try reflexivity.
  elim (delivered_Raise p e Ep Hs s E).
Qed.

Lemma failed_snapshot_skips_insights_witness :
  loop_iteration exiting_pipeline (stored_after [rally_pipeline])
  = loop_iteration
      {| iscoroutinefunction := false;
         process_stream_once := Raise system_exit;
         generate_insights := fun _ => Raise key_error |}
      (stored_after [rally_pipeline]).
Proof.
  apply (failed_snapshot_skips_insights _ _ _ system_exit); reflexivity.
Defined.

(** X8: /api/stats only reads.  The handler never assigns the global, and
    a request served right after a completed pass returns exactly the
    record that pass stored. *)
Theorem api_stats_only_reads :
  (forall g, snd (api_stats g) = g)
  /\ (forall p g g',
        loop_iteration p g = (Return tt, g') ->
        (loop_iteration p ;;; api_stats) g = (Return g', g')).
Proof.
  split.
  - intro g. rewrite api_stats_unfold. destruct (is_None g); reflexivity.
  - intros p g g' E. unfold bind. rewrite E, api_stats_unfold.
    assert (Hd : is_None g' = false).
    { rewrite loop_iteration_unfold in E.
      destruct (delivered p) as [s | e |]; [| | discriminate].
      - destruct (generate_insights p s) as [t | e |];
          [| destruct (isinstance_Exception e) |];
          try discriminate; injection E as <-; reflexivity.
      - destruct (isinstance_Exception e); [| discriminate].
        destruct (exn_repr_raises e); [discriminate |].
        destruct g; try discriminate. injection E as <-. reflexivity. }
    rewrite Hd. reflexivity.
Qed.

Lemma api_stats_only_reads_witness :
  (loop_iteration offline_pipeline ;;; api_stats) LATEST_STATS
  = (Return (stored_after [offline_pipeline]), stored_after [offline_pipeline]).
Proof.
  apply (proj2 api_stats_only_reads offline_pipeline LATEST_STATS). reflexivity.
Defined.

(** X9: without the pipeline, with the two fallback stubs in place, every
    pass completes and stores the same "ok" record, from any stored value
    and however many cycles have run. *)
Theorem stubs_store_one_record :
  forall n g,
    _processing_loop (repeat stub_pipeline (S n)) g = (Return tt, stub_record).
Proof.
  assert (H1 : forall g, loop_iteration stub_pipeline g = (Return tt, stub_record)).
  { intro g. rewrite loop_iteration_unfold. reflexivity. }
  induction n as [| n IH]; intro g.
  - cbn [repeat]. rewrite processing_loop_cons, H1. reflexivity.
  - change (repeat stub_pipeline (S (S n)))
      with (stub_pipeline :: repeat stub_pipeline (S n)).
    rewrite processing_loop_cons, H1. apply IH.
Qed.

(** * Further properties of the page routes *)

Lemma code_to_byte (z : Z) : 0 <= z < 256 -> code (to_byte z) = z.
Proof.
  intro Hz. unfold code, to_byte.
  destruct (Byte.of_N (Z.to_N z)) as [b |] eqn:E.
  - apply Byte.to_of_N in E. rewrite E. lia.
  - apply Byte.of_N_None_iff in E. lia.
Qed.

(** The encoding of a scalar value decodes to it. *)
Lemma decode_encode_code_point (c : Z) (rest : list byte) :
  scalar c = true ->
  decode (encode_code_point c ++ rest)%list = option_map (cons c) (decode rest).
Proof.
  unfold scalar, surrogate. intro Hc.
  unfold encode_code_point.
  destruct (c <? 128) eqn:L1.
  { cbn [app decode]. rewrite code_to_byte by lia. rewrite L1. reflexivity. }
  destruct (c <? 2048) eqn:L2.
  { cbn [app decode]. unfold continuation.
    rewrite !code_to_byte by (Z.div_mod_to_equations; lia).
    replace (192 + c / 64 <? 128) with false by (Z.div_mod_to_equations; lia).
    replace ((192 <=? 192 + c / 64) && (192 + c / 64 <? 224)) with true
      by (Z.div_mod_to_equations; lia).
    replace ((192 + c / 64 - 192) * 64 + (128 + c mod 64 - 128)) with c
      by (Z.div_mod_to_equations; lia).
    replace ((128 <=? 128 + c mod 64) && (128 + c mod 64 <=? 191) && (128 <=? c))
      with true by (Z.div_mod_to_equations; lia).
    reflexivity. }
  destruct (c <? 65536) eqn:L3.
  { cbn [app decode]. unfold continuation, surrogate.
    rewrite !code_to_byte by (Z.div_mod_to_equations; lia).
    replace (224 + c / 4096 <? 128) with false by (Z.div_mod_to_equations; lia).
    replace ((192 <=? 224 + c / 4096) && (224 + c / 4096 <? 224)) with false
      by (Z.div_mod_to_equations; lia).
    replace ((224 <=? 224 + c / 4096) && (224 + c / 4096 <? 240)) with true
      by (Z.div_mod_to_equations; lia).
    replace ((224 + c / 4096 - 224) * 4096 + (128 + (c / 64) mod 64 - 128) * 64
             + (128 + c mod 64 - 128)) with c
      by (Z.div_mod_to_equations; lia).
    replace ((128 <=? 128 + (c / 64) mod 64) && (128 + (c / 64) mod 64 <=? 191)
             && ((128 <=? 128 + c mod 64) && (128 + c mod 64 <=? 191))
             && (2048 <=? c) && negb ((55296 <=? c) && (c <=? 57343)))
      with true by (Z.div_mod_to_equations; lia).
    reflexivity. }
  cbn [app decode]. unfold continuation.
  rewrite !code_to_byte by (Z.div_mod_to_equations; lia).
  replace (240 + c / 262144 <? 128) with false by (Z.div_mod_to_equations; lia).
  replace ((192 <=? 240 + c / 262144) && (240 + c / 262144 <? 224)) with false
    by (Z.div_mod_to_equations; lia).
  replace ((224 <=? 240 + c / 262144) && (240 + c / 262144 <? 240)) with false
    by (Z.div_mod_to_equations; lia).
  replace ((240 <=? 240 + c / 262144) && (240 + c / 262144 <? 248)) with true
    by (Z.div_mod_to_equations; lia).
  replace ((240 + c / 262144 - 240) * 262144 + (128 + (c / 4096) mod 64 - 128) * 4096
           + (128 + (c / 64) mod 64 - 128) * 64 + (128 + c mod 64 - 128)) with c
    by (Z.div_mod_to_equations; lia).
  replace ((128 <=? 128 + (c / 4096) mod 64) && (128 + (c / 4096) mod 64 <=? 191)
           && ((128 <=? 128 + (c / 64) mod 64) && (128 + (c / 64) mod 64 <=? 191))
           && ((128 <=? 128 + c mod 64) && (128 + c mod 64 <=? 191))
           && (65536 <=? c) && (c <=? 1114111))
    with true by (Z.div_mod_to_equations; lia).
  reflexivity.
Qed.

Lemma encode_decode (t : text) (b : list byte) :
  encode t = Some b -> decode b = Some t.
Proof.
  revert b. induction t as [| c t IH]; intro b; cbn [encode].
  - intros [= <-]. reflexivity.
  - destruct (scalar c) eqn:Hc; [| discriminate].
    destruct (encode t) as [b' |]; [| discriminate].
    intros [= <-]. rewrite (decode_encode_code_point c b' Hc), (IH b' eq_refl).
    reflexivity.
Qed.

Lemma universal_newlines_no_carriage_return (t : text) :
  ~ In 13 (universal_newlines t).
Proof.
  remember (length t) as n eqn:Hn. revert t Hn.
  induction n as [n IH] using (well_founded_induction Wf_nat.lt_wf).
  intros t Hn. destruct t as [| c r]; [intros [] |].
  cbn [universal_newlines].
  destruct (c =? 13) eqn:Ec.
  - intros [H | H]; [discriminate |].
    destruct r as [| c' r']; [exact H |].
    destruct (c' =? 10).
    + apply (IH (length r')) with (t := r'); auto. subst n. cbn. lia.
    + apply (IH (length (c' :: r'))) with (t := c' :: r'); auto. subst n. cbn. lia.
  - intros [H | H]; [lia |].
    apply (IH (length r)) with (t := r); auto. subst n. cbn. lia.
Qed.

(** Among the encodings of scalar values, only that of U+000D holds the
    byte 0D. *)
Lemma encode_code_point_carriage_return (c : Z) :
  scalar c = true -> In x0d (encode_code_point c) -> c = 13.
Proof.
  unfold scalar, surrogate. intros Hc Hin.
  assert (Hb : forall z, 0 <= z < 256 -> to_byte z = x0d -> z = 13).
  { intros z Hz E. rewrite <- (code_to_byte z Hz), E. reflexivity. }
  unfold encode_code_point in Hin.
  destruct (c <? 128) eqn:L1; [| destruct (c <? 2048) eqn:L2;
                                  [| destruct (c <? 65536) eqn:L3]];
    cbn [In] in Hin;
    repeat match goal with
           | H : _ \/ _ |- _ => destruct H as [H | H]
           | H : False |- _ => destruct H
           | H : to_byte ?z = x0d |- _ =>
               apply Hb in H; [| Z.div_mod_to_equations; lia]
           end;
    Z.div_mod_to_equations; lia.
Qed.

Lemma encode_carriage_return (t : text) :
  forall b, encode t = Some b -> In x0d b -> In 13 t.
Proof.
  induction t as [| c t IH]; intro b; cbn [encode].
  - intros [= <-] [].
  - destruct (scalar c) eqn:Hc; [| discriminate].
    destruct (encode t) as [b' |]; [| discriminate].
    intros [= <-] Hin. apply in_app_or in Hin as [Hin | Hin].
    + left. apply encode_code_point_carriage_return; assumption.
    + right. apply (IH b' eq_refl Hin).
Qed.

(** What lies behind an answer 200. *)
Lemma page_200 (r : page_route) (fs : filesystem) :
  status (GET_page r fs) = 200 ->
  exists content t b,
    fs (backing_path r) = Some (File content)
    /\ decode content = Some t
    /\ encode (universal_newlines t) = Some b
    /\ page_handler r fs = Return (universal_newlines t)
    /\ GET_page r fs = {| status := 200; body := b |}.
Proof.
  unfold GET_page, HTMLResponse. rewrite page_handler_unfold.
  destruct (fs (backing_path r)) as [[content | | content | at_stat cls text] |];
    try discriminate.
  destruct (decode content) as [t |] eqn:Hd; [| discriminate].
  destruct (decoded_page_encodes content t Hd) as [b E].
  intros _. exists content, t, b. cbn [respond]. rewrite E. auto.
Qed.



(** X11: a page route reads its own file and nothing else: two file
    systems that agree at the path of that file get the same result from the
    handler and the same response. *)
Theorem page_depends_on_its_file :
  forall r fs fs',
    fs' (backing_path r) = fs (backing_path r) ->
    page_handler r fs' = page_handler r fs
    /\ GET_page r fs' = GET_page r fs.
Proof.
  intros r fs fs' E. unfold GET_page. rewrite !page_handler_unfold, E.
  split; reflexivity.
Qed.

Lemma page_depends_on_its_file_witness :
  GET_page HighlightsHtml (single_file "frontend/technique.html" (File latin1_page))
  = GET_page HighlightsHtml no_files.
Proof.
  apply (page_depends_on_its_file HighlightsHtml no_files
           (single_file "frontend/technique.html" (File latin1_page))).
  reflexivity.
Defined.

(** X12: the body of a page answered with 200 holds no carriage return:
    reading in text mode has turned every CR LF and every lone CR into LF. *)
Theorem served_page_has_no_carriage_return :
  forall r fs,
    status (GET_page r fs) = 200 ->
    ~ In x0d (body (GET_page r fs)).
Proof.
  intros r fs H.
  destruct (page_200 r fs H) as (content & t & b & _ & _ & Eb & _ & ->).
  cbn [body]. intro Hin.
  apply (universal_newlines_no_carriage_return t).
  apply (encode_carriage_return _ b Eb Hin).
Qed.

Lemma served_page_has_no_carriage_return_witness :
  ~ In x0d (body (GET_page TechniqueHtml
                    (single_file "frontend/technique.html" (File crlf_page)))).
Proof.
  apply (served_page_has_no_carriage_return TechniqueHtml
           (single_file "frontend/technique.html" (File crlf_page))).
  reflexivity.
Defined.

(** X13: the body of a page answered with 200 is valid UTF-8, and it
    decodes to the very text the handler returned. *)
Theorem served_page_decodes :
  forall r fs,
    status (GET_page r fs) = 200 ->
    exists t,
      page_handler r fs = Return t
      /\ decode (body (GET_page r fs)) = Some t.
Proof.
  intros r fs H.
  destruct (page_200 r fs H) as (content & t & b & _ & _ & Eb & Eh & ->).
  exists (universal_newlines t). split; [exact Eh |].
  cbn [body]. apply encode_decode, Eb.
Qed.

Lemma served_page_decodes_witness :
  exists t,
    page_handler Root (single_file "frontend/analysis.html" (File utf8_page))
    = Return t
    /\ decode (body (GET_page Root
                       (single_file "frontend/analysis.html" (File utf8_page))))
       = Some t.
Proof.
  apply (served_page_decodes Root
           (single_file "frontend/analysis.html" (File utf8_page))).
  reflexivity.
Defined.

(** X14: serving is idempotent.  A body that was answered with 200, saved
    as the file of the route, is served back byte for byte. *)
Theorem served_page_is_served_unchanged :
  forall r fs fs',
    status (GET_page r fs) = 200 ->
    fs' (backing_path r) = Some (File (body (GET_page r fs))) ->
    GET_page r fs' = GET_page r fs.
Proof.
  intros r fs fs' H Hf.
  destruct (page_200 r fs H) as (content & t & b & _ & _ & Eb & _ & E).
  rewrite E in *. cbn [body] in *.
  pose proof (encode_decode _ _ Eb) as Hd.
  unfold GET_page, HTMLResponse. rewrite page_handler_unfold, Hf, Hd.
  cbn [respond].
  rewrite (universal_newlines_id (universal_newlines t))
    by apply universal_newlines_no_carriage_return.
  rewrite Eb. reflexivity.
Qed.

Lemma served_page_is_served_unchanged_witness :
  GET_page TechniqueHtml
    (single_file "frontend/technique.html" (File [x3c; x70; x3e; x0a]))
  = GET_page TechniqueHtml
      (single_file "frontend/technique.html" (File crlf_page)).
Proof.
  apply (served_page_is_served_unchanged TechniqueHtml
           (single_file "frontend/technique.html" (File crlf_page))
           (single_file "frontend/technique.html" (File [x3c; x70; x3e; x0a]))).
  - reflexivity.
  - reflexivity.
Defined.
